(** * USART hardware-handshaking example: the rate governor and the epoch reporter

    Shallow embedding of [examples/usart_hard_handshaking/main.c]: the two
    interrupt handlers [USART1_IrqHandler] and [TC0_IrqHandler], the shared
    counter [bytesReceived], the reporter's [bytesTotal], the string buffer
    [pString] and the start-up sequence at the end of [main].

    Counters are [uint32_t] in the source; they are modelled as [Z] with the
    wrap-around written out ([wrap32]).  Calls into the chip library
    ([USART_ReadBuffer], [USART_WriteBuffer]) are recorded, in program order,
    in a log of [Action]s that every handler returns next to the new state. *)

From Stdlib Require Import ZArith Ascii String List Bool Lia.
Import ListNotations.
Local Open Scope Z_scope.

(** ** Configuration constants of the source *)

(** [#define MAX_BPS 500] *)
Definition MAX_BPS : Z := 500.

(** [#define BUFFER_SIZE 1] *)
Definition BUFFER_SIZE : Z := 1.

(** [char pString[24]]: [sizeof(pString)]. *)
Definition sizeof_pString : nat := 24.

(** Arithmetic on [uint32_t]. *)
Definition wrap32 (x : Z) : Z := x mod 2 ^ 32.

(** Register bit masks.  The chip header that declares them is not among the
    sources at hand; the values are those of the SAM3S register layout
    (RXBUFF is bit 12 of the USART status/interrupt registers, CPCS is bit 4
    of the timer status register).  The development only relies on each mask
    being one non-zero bit. *)
Definition US_CSR_RXBUFF : Z := Z.shiftl 1 12.
Definition US_IER_RXBUFF : Z := Z.shiftl 1 12.
Definition US_IDR_RXBUFF : Z := Z.shiftl 1 12.
Definition TC_SR_CPCS : Z := Z.shiftl 1 4.

(** ** Machine state *)

(** The registers of [BOARD_USART_BASE] that the handlers touch: the PDC
    receive counter [US_RCR] (bytes still to receive for the outstanding
    request) and the interrupt mask, set through [US_IER] and cleared through
    [US_IDR]. *)
Record Usart : Type := mkUsart {
  US_RCR : Z;
  US_IMR : Z
}.

Record Machine : Type := mkMachine {
  bytesReceived : Z;           (* volatile uint32_t bytesReceived *)
  bytesTotal : Z;              (* static uint32_t bytesTotal (TC0_IrqHandler) *)
  pString : list ascii;        (* char pString[24] *)
  BOARD_USART_BASE : Usart
}.

(** Calls into the chip library, as the handlers issue them. *)
Inductive Action : Type :=
| ReadBuffer (size : Z) (result : Z)    (* USART_ReadBuffer(.., pBuffer, size) and what it returned *)
| WriteBuffer (data : list ascii).      (* USART_WriteBuffer(.., pString, sizeof(pString)): the bytes sent *)

(** ** A state-and-log monad for the handler bodies *)

Definition M (A : Type) : Type := Machine -> A * Machine * list Action.

Definition ret {A : Type} (a : A) : M A := fun m => (a, m, []).

Definition bind {A B : Type} (c : M A) (k : A -> M B) : M B :=
  fun m =>
    let r1 := c m in
    let r2 := k (fst (fst r1)) (snd (fst r1)) in
    (fst (fst r2), snd (fst r2), snd r1 ++ snd r2).

Notation "x <- c ;; k" := (bind c (fun x => k))
  (at level 61, c at next level, right associativity).
Notation "c ;;; k" := (bind c (fun _ => k))
  (at level 61, right associativity).

Definition state_of {A : Type} (r : A * Machine * list Action) : Machine := snd (fst r).
Definition log_of {A : Type} (r : A * Machine * list Action) : list Action := snd r.

(** Accesses to the globals. *)
Definition load_bytesReceived : M Z := fun m => (bytesReceived m, m, []).

Definition store_bytesReceived (v : Z) : M unit := fun m =>
  (tt, mkMachine v (bytesTotal m) (pString m) (BOARD_USART_BASE m), []).

Definition load_bytesTotal : M Z := fun m => (bytesTotal m, m, []).

Definition store_bytesTotal (v : Z) : M unit := fun m =>
  (tt, mkMachine (bytesReceived m) v (pString m) (BOARD_USART_BASE m), []).

Definition with_usart (u : Usart) (m : Machine) : Machine :=
  mkMachine (bytesReceived m) (bytesTotal m) (pString m) u.

(** Register accesses on [BOARD_USART_BASE]. *)
Definition read_US_RCR : M Z := fun m => (US_RCR (BOARD_USART_BASE m), m, []).

(** [BOARD_USART_BASE->US_IER = v]: sets the bits of [v] in the mask. *)
Definition write_US_IER (v : Z) : M unit := fun m =>
  let u := BOARD_USART_BASE m in
  (tt, with_usart (mkUsart (US_RCR u) (Z.lor (US_IMR u) v)) m, []).

(** [BOARD_USART_BASE->US_IDR = v]: clears the bits of [v] in the mask. *)
Definition write_US_IDR (v : Z) : M unit := fun m =>
  let u := BOARD_USART_BASE m in
  (tt, with_usart (mkUsart (US_RCR u) (Z.ldiff (US_IMR u) v)) m, []).

(** Modelled from the spec: [USART_ReadBuffer] (chip library, not in the
    sources at hand) is the Link Driver's "arm a receive of N bytes": it
    fails when the peripheral cannot accept a new request, and no buffering
    beyond one outstanding unit is provided.  It returns 1 when the request
    is accepted and 0 when it is refused. *)
Definition USART_ReadBuffer (size : Z) : M Z := fun m =>
  let u := BOARD_USART_BASE m in
  if US_RCR u =? 0
  then (1, with_usart (mkUsart size (US_IMR u)) m, [ReadBuffer size 1])
  else (0, m, [ReadBuffer size 0]).

(** Modelled from the spec: [USART_WriteBuffer] (chip library, not in the
    sources at hand) hands [size] bytes of [pString] to the Output Sink. *)
Definition USART_WriteBuffer (size : nat) : M Z := fun m =>
  (1, m, [WriteBuffer (firstn size (pString m))]).

(** ** [sprintf( pString, "Bps: %4u; Tot: %6u\n\r", .. )] *)

Definition digit (d : Z) : ascii := ascii_of_nat (48 + Z.to_nat d).

(** Decimal digits of [n], most significant first. *)
Fixpoint utoa_aux (fuel : nat) (n : Z) (acc : list ascii) : list ascii :=
  match fuel with
  | O => acc
  | S fuel' =>
      let acc' := digit (n mod 10) :: acc in
      if n / 10 =? 0 then acc' else utoa_aux fuel' (n / 10) acc'
  end.

(** A 32-bit unsigned value has at most 10 decimal digits. *)
Definition utoa (n : Z) : list ascii := utoa_aux 10 n [].

(** [%<w>u]: the decimal digits, padded with spaces on the left up to the
    minimum field width [w]; never truncated. *)
Definition fmt_u (w : nat) (n : Z) : list ascii :=
  let ds := utoa n in
  repeat " "%char (w - length ds) ++ ds.

Definition LF : ascii := "010"%char.
Definition CR : ascii := "013"%char.

(** The characters [sprintf] produces for the report format, without the
    terminating NUL. *)
Definition report_chars (bps tot : Z) : list ascii :=
  list_ascii_of_string "Bps: "%string ++ fmt_u 4 bps ++
  list_ascii_of_string "; Tot: "%string ++ fmt_u 6 tot ++ [LF; CR].

(** All the bytes [sprintf] writes, starting at [pString[0]]: the characters
    and the terminating NUL. *)
Definition sprintf_bytes (bps tot : Z) : list ascii :=
  report_chars bps tot ++ [zero].

(** Writing [data] from the start of the array [buf]: the bytes that land
    inside the array replace its prefix; the bytes that would land past its
    end are not part of the array.  What those bytes hit is a matter of the
    memory layout: see [Spill] and [sprintf_pString_in] below. *)
Definition store_bytes (buf data : list ascii) : list ascii :=
  firstn (length buf) data ++ skipn (length data) buf.

(** [sprintf] into [pString] in the layout in which no variable of the
    program lies behind the array: only [pString] changes.  The handler built
    on it, [TC0_IrqHandler], is the instance [spill_unused] of
    [TC0_IrqHandler_in], which takes the layout as a parameter. *)
Definition sprintf_pString (bps tot : Z) : M unit := fun m =>
  (tt, mkMachine (bytesReceived m) (bytesTotal m)
         (store_bytes (pString m) (sprintf_bytes bps tot))
         (BOARD_USART_BASE m), []).

(** ** The interrupt handlers *)

(** [status] is the value read from [BOARD_USART_BASE->US_CSR]. *)
Definition USART1_IrqHandler (status : Z) : M unit :=
  if Z.land status US_CSR_RXBUFF =? US_CSR_RXBUFF then
    n <- load_bytesReceived ;;
    store_bytesReceived (wrap32 (n + BUFFER_SIZE)) ;;;
    n' <- load_bytesReceived ;;
    if n' <? MAX_BPS then
      USART_ReadBuffer BUFFER_SIZE ;;; ret tt
    else
      write_US_IDR US_IDR_RXBUFF
  else ret tt.

(** [dwStatus] is the value read from [TC0->TC_CHANNEL[0].TC_SR]. *)
Definition TC0_IrqHandler (dwStatus : Z) : M unit :=
  if Z.land dwStatus TC_SR_CPCS =? TC_SR_CPCS then
    n <- load_bytesReceived ;;
    t <- load_bytesTotal ;;
    store_bytesTotal (wrap32 (t + n)) ;;;
    bps <- load_bytesReceived ;;
    tot <- load_bytesTotal ;;
    sprintf_pString bps tot ;;;
    USART_WriteBuffer sizeof_pString ;;;
    store_bytesReceived 0 ;;;
    rcr <- read_US_RCR ;;
    if rcr =? 0 then
      USART_ReadBuffer BUFFER_SIZE ;;;
      write_US_IER US_IER_RXBUFF
    else ret tt
  else ret tt.

(** The end of [main]: "Start receiving data and start timer". *)
Definition main_start : M unit :=
  USART_ReadBuffer BUFFER_SIZE ;;;
  write_US_IER US_IER_RXBUFF.

(** Globals are zero-initialised; the PDC is idle and no USART interrupt is
    enabled after reset. *)
Definition reset_state : Machine :=
  mkMachine 0 0 (repeat zero sizeof_pString) (mkUsart 0 0).

Definition boot_state : Machine := state_of (main_start reset_state).

(** ** The interrupt-driven system *)

(** A receive request is outstanding with the PDC. *)
Definition armed (u : Usart) : bool := negb (US_RCR u =? 0).

(** The RXBUFF interrupt is enabled in the interrupt mask. *)
Definition rx_irq_enabled (u : Usart) : bool :=
  negb (Z.land (US_IMR u) US_CSR_RXBUFF =? 0).

(** Header comment of the source: "Since no buffer is provided to the PDC,
    this will set the RTS line, telling the computer to stop sending data." *)
Definition flow_control_asserted (u : Usart) : bool := US_RCR u =? 0.

(** The PDC has received the outstanding unit: its receive counter is back
    to zero, which raises RXBUFF in the status register. *)
Definition pdc_complete (m : Machine) : Machine :=
  with_usart (mkUsart 0 (US_IMR (BOARD_USART_BASE m))) m.

Inductive Event : Type :=
| RxComplete   (* the outstanding unit has been received: USART1 interrupt, RXBUFF set *)
| Tick.        (* one-second RC compare: TC0 interrupt, CPCS set *)

(** One event, with its handler run to completion.  A receive completion is
    raised when the PDC has filled the buffer of an outstanding request, and
    reaches the handler only while the RXBUFF interrupt is enabled (the
    source: "Otherwise disable interrupt"); with no request outstanding the
    sender is held off by RTS and nothing completes.  The handler then reads
    RXBUFF set in the status register.  The tick handler reads CPCS set.
    Here the USART handler is served as soon as the unit is complete; the
    runs in which a tick is served first are those of [hw_step] below, of
    which these are a part ([run_is_fused_hw_run]). *)
Definition step (e : Event) (m : Machine) : option (Machine * list Action) :=
  match e with
  | RxComplete =>
      if armed (BOARD_USART_BASE m) && rx_irq_enabled (BOARD_USART_BASE m) then
        let r := USART1_IrqHandler US_CSR_RXBUFF (pdc_complete m) in
        Some (state_of r, log_of r)
      else None
  | Tick =>
      let r := TC0_IrqHandler TC_SR_CPCS m in
      Some (state_of r, log_of r)
  end.

Fixpoint run (evs : list Event) (m : Machine) : option (Machine * list Action) :=
  match evs with
  | [] => Some (m, [])
  | e :: evs' =>
      match step e m with
      | None => None
      | Some (m1, l1) =>
          match run evs' m1 with
          | None => None
          | Some (m2, l2) => Some (m2, l1 ++ l2)
          end
      end
  end.

(** States the program can be in between two interrupts. *)
Definition reachable (m : Machine) : Prop :=
  exists evs l, run evs boot_state = Some (m, l).

Definition is_tick (e : Event) : bool :=
  match e with Tick => true | RxComplete => false end.

(** Reading the log: sizes of the receives requested, in order. *)
Definition arms (l : list Action) : list Z :=
  flat_map (fun a => match a with ReadBuffer n _ => [n] | WriteBuffer _ => [] end) l.

(** The report records sent, in order. *)
Definition reports (l : list Action) : list (list ascii) :=
  flat_map (fun a => match a with WriteBuffer d => [d] | ReadBuffer _ _ => [] end) l.

(** A requested receive was refused. *)
Definition arm_failed (l : list Action) : bool :=
  existsb (fun a => match a with ReadBuffer _ r => r =? 0 | WriteBuffer _ => false end) l.


(** What holds between two interrupts. *)
Definition Inv (m : Machine) : Prop :=
  length (pString m) = sizeof_pString /\
  0 <= bytesTotal m < 2 ^ 32 /\
  ((US_RCR (BOARD_USART_BASE m) = BUFFER_SIZE /\
    US_IMR (BOARD_USART_BASE m) = US_IER_RXBUFF /\
    0 <= bytesReceived m < MAX_BPS) \/
   (US_RCR (BOARD_USART_BASE m) = 0 /\
    US_IMR (BOARD_USART_BASE m) = 0 /\
    MAX_BPS <= bytesReceived m <= MAX_BPS + (BUFFER_SIZE - 1))).

(** ** Named states and event sequences used in the statements below *)

(** The states in which an epoch begins: after start-up and after each tick. *)
Definition epoch_start (m : Machine) : Prop :=
  m = boot_state \/ exists m0 l0, reachable m0 /\ step Tick m0 = Some (m, l0).

(** States met in the examples below. *)
Definition threshold_eve : Machine :=
  mkMachine 499 0 (repeat zero sizeof_pString) (mkUsart 1 4096).

Definition at_threshold : Machine :=
  mkMachine 500 0 (repeat zero sizeof_pString) (mkUsart 0 0).

(** [MAX_BPS] completions followed by the tick. *)
Definition busy_epoch : list Event := repeat RxComplete 500 ++ [Tick].

(** The state in which reception has been stopped at the threshold. *)
Definition stopped (t : Z) (s : list ascii) : Machine :=
  mkMachine MAX_BPS t s (mkUsart 0 0).

(** The state a tick leaves behind. *)
Definition ticked (bps t : Z) : Machine :=
  mkMachine 0 t (firstn sizeof_pString (report_chars bps t))
    (mkUsart BUFFER_SIZE US_IER_RXBUFF).





(** A receive completion signalled while the PDC still holds a request: the
    situation in which [USART_ReadBuffer] refuses. *)
Definition busy_link : Machine :=
  mkMachine 7 0 (repeat zero sizeof_pString) (mkUsart 1 4096).

Definition is_rx (e : Event) : bool := negb (is_tick e).

(** The number a string of decimal digits stands for, continuing from
    [start]. *)
Definition digits_value (ds : list ascii) (start : Z) : Z :=
  fold_left (fun a c => 10 * a + (Z.of_nat (nat_of_ascii c) - 48)) ds start.

(** ** Counting and reading back, for the properties of whole runs *)

(** Receive completions and ticks in an event sequence. *)
Definition rx_count (evs : list Event) : Z := Z.of_nat (length (filter is_rx evs)).

Definition tick_count (evs : list Event) : Z := Z.of_nat (length (filter is_tick evs)).

(** Receive requests held by the PDC: one or none. *)
Definition outstanding (u : Usart) : Z := if armed u then 1 else 0.

(** What a record sent by the reporter looks like: [sizeof(pString)] bytes,
    the leading bytes of the formatted line for an epoch count within the
    bound and a 32-bit total. *)
Definition well_formed_record (d : list ascii) : Prop :=
  length d = sizeof_pString /\
  exists bps tot,
    0 <= bps <= MAX_BPS + (BUFFER_SIZE - 1) /\
    0 <= tot < 2 ^ 32 /\
    d = firstn sizeof_pString (report_chars bps tot).

(** Reading a right-aligned decimal field of a record: the [width]
    characters from position [start], leading spaces skipped. *)
Fixpoint drop_spaces (l : list ascii) : list ascii :=
  match l with
  | [] => []
  | c :: l' => if Ascii.eqb c " " then drop_spaces l' else l
  end.

Definition read_field (start width : nat) (record : list ascii) : Z :=
  digits_value (drop_spaces (firstn width (skipn start record))) 0.

(** ** The bytes behind [pString], and the three interrupt sources apart *)

(** [sprintf] writes 25 bytes or more into the 24 of [pString]; where the
    excess lands is decided by the linker, not by the program.  A layout is
    given by what the excess bytes do to the two counters of the program,
    the only part of [Machine] that can lie behind the array: it maps the
    excess bytes and the pair ([bytesReceived], [bytesTotal]) to their new
    values.  [sprintf_pString] above is the layout in which nothing of the
    program lies there. *)
Definition Spill : Type := list ascii -> Z * Z -> Z * Z.

Definition spill_unused : Spill := fun _ v => v.

(** The four bytes of a 32-bit value, least significant first, and back. *)
Definition le_bytes (v : Z) : list ascii :=
  map (fun i => ascii_of_nat (Z.to_nat ((v / 256 ^ i) mod 256))) [0; 1; 2; 3].

Definition le_value (bs : list ascii) : Z :=
  fold_right (fun c acc => Z.of_nat (nat_of_ascii c) + 256 * acc) 0 bs.

(** The layout in which [bytesTotal] is placed right behind [pString]: the
    excess bytes replace its low-order bytes. *)
Definition spill_on_bytesTotal : Spill :=
  fun bs v => (fst v, le_value (store_bytes (le_bytes (snd v)) bs)).

(** Whatever is written, the counters are 32-bit variables. *)
Definition spill_32bit (spill : Spill) : Prop :=
  forall bs n t,
    0 <= n < 2 ^ 32 -> 0 <= t < 2 ^ 32 ->
    0 <= fst (spill bs (n, t)) < 2 ^ 32 /\ 0 <= snd (spill bs (n, t)) < 2 ^ 32.

Definition sprintf_pString_in (spill : Spill) (bps tot : Z) : M unit := fun m =>
  let out := sprintf_bytes bps tot in
  let hit := spill (skipn (length (pString m)) out) (bytesReceived m, bytesTotal m) in
  (tt, mkMachine (fst hit) (snd hit) (store_bytes (pString m) out)
         (BOARD_USART_BASE m), []).

(** The body of [TC0_IrqHandler] under "RC compare", in two parts: the
    statements up to [USART_WriteBuffer], and the statements from
    [bytesReceived = 0] on. *)
Definition TC0_display_info (spill : Spill) : M unit :=
  n <- load_bytesReceived ;;
  t <- load_bytesTotal ;;
  store_bytesTotal (wrap32 (t + n)) ;;;
  bps <- load_bytesReceived ;;
  tot <- load_bytesTotal ;;
  sprintf_pString_in spill bps tot ;;;
  USART_WriteBuffer sizeof_pString ;;;
  ret tt.

Definition TC0_reset_and_resume : M unit :=
  store_bytesReceived 0 ;;;
  rcr <- read_US_RCR ;;
  if rcr =? 0 then
    USART_ReadBuffer BUFFER_SIZE ;;;
    write_US_IER US_IER_RXBUFF
  else ret tt.

(** [TC0_IrqHandler] in a given layout. *)
Definition TC0_IrqHandler_in (spill : Spill) (dwStatus : Z) : M unit :=
  if Z.land dwStatus TC_SR_CPCS =? TC_SR_CPCS then
    TC0_display_info spill ;;; TC0_reset_and_resume
  else ret tt.

(** The status the USART handler reads: RXBUFF ("Receive buffer is full") is
    set while the PDC has no receive buffer left. *)
Definition US_CSR_now (u : Usart) : Z :=
  if US_RCR u =? 0 then US_CSR_RXBUFF else 0.

(** The three sources apart: the PDC completing the outstanding unit, the
    USART interrupt being served, the timer interrupt being served.  Each
    handler still runs to completion, but a tick may now be served while a
    completed unit waits for the USART handler. *)
Inductive HwEvent : Type :=
| PdcDone
| UsartIrq
| TickIrq.

Definition hw_step (spill : Spill) (e : HwEvent) (m : Machine)
  : option (Machine * list Action) :=
  match e with
  | PdcDone =>
      if armed (BOARD_USART_BASE m) then Some (pdc_complete m, []) else None
  | UsartIrq =>
      if rx_irq_enabled (BOARD_USART_BASE m) then
        let r := USART1_IrqHandler (US_CSR_now (BOARD_USART_BASE m)) m in
        Some (state_of r, log_of r)
      else None
  | TickIrq =>
      let r := TC0_IrqHandler_in spill TC_SR_CPCS m in
      Some (state_of r, log_of r)
  end.

Fixpoint hw_run (spill : Spill) (evs : list HwEvent) (m : Machine)
  : option (Machine * list Action) :=
  match evs with
  | [] => Some (m, [])
  | e :: evs' =>
      match hw_step spill e m with
      | None => None
      | Some (m1, l1) =>
          match hw_run spill evs' m1 with
          | None => None
          | Some (m2, l2) => Some (m2, l1 ++ l2)
          end
      end
  end.

Definition hw_reachable (spill : Spill) (m : Machine) : Prop :=
  exists evs l, hw_run spill evs boot_state = Some (m, l).

(** The events of [step] in terms of the three sources: a receive
    completion is the PDC finishing followed at once by the USART handler. *)
Definition unfuse (e : Event) : list HwEvent :=
  match e with
  | RxComplete => [PdcDone; UsartIrq]
  | Tick => [TickIrq]
  end.

Definition pdc_count (evs : list HwEvent) : Z :=
  Z.of_nat (length (filter (fun e => match e with PdcDone => true | _ => false end) evs)).

(** The record for an epoch count and a total, and the epoch counts of a
    list of such pairs added up. *)
Definition record (s : Z * Z) : list ascii :=
  firstn sizeof_pString (report_chars (fst s) (snd s)).

Definition sum_counts (samples : list (Z * Z)) : Z :=
  fold_right Z.add 0 (map fst samples).

(** A completed unit waits for the USART handler. *)
Definition unit_pending (u : Usart) : bool := negb (armed u) && rx_irq_enabled u.

(** The bytes of that unit: counted by nobody yet. *)
Definition pending_bytes (m : Machine) : Z :=
  if unit_pending (BOARD_USART_BASE m) then BUFFER_SIZE else 0.

Definition Pending (m : Machine) : Prop :=
  length (pString m) = sizeof_pString /\
  0 <= bytesTotal m < 2 ^ 32 /\
  US_RCR (BOARD_USART_BASE m) = 0 /\
  US_IMR (BOARD_USART_BASE m) = US_IER_RXBUFF /\
  0 <= bytesReceived m < MAX_BPS.

(** What holds between two events of the three sources. *)
Definition HInv (m : Machine) : Prop := Inv m \/ Pending m.

(** * Properties *)

(** ** The handlers, one equation per path *)

Ltac unfold_handler :=
  cbv [USART1_IrqHandler TC0_IrqHandler main_start bind ret
       load_bytesReceived store_bytesReceived load_bytesTotal store_bytesTotal
       read_US_RCR write_US_IER write_US_IDR USART_ReadBuffer USART_WriteBuffer
       sprintf_pString with_usart pdc_complete state_of log_of
       fst snd app bytesReceived bytesTotal pString BOARD_USART_BASE US_RCR US_IMR].

Lemma RXBUFF_set : (Z.land US_CSR_RXBUFF US_CSR_RXBUFF =? US_CSR_RXBUFF) = true.
Proof. reflexivity. Qed.

Lemma CPCS_set : (Z.land TC_SR_CPCS TC_SR_CPCS =? TC_SR_CPCS) = true.
Proof. reflexivity. Qed.

Lemma BUFFER_SIZE_pos : 0 < BUFFER_SIZE.
Proof. reflexivity. Qed.

Lemma threshold_fits : 0 < MAX_BPS /\ MAX_BPS + (BUFFER_SIZE - 1) < 2 ^ 32.
Proof. split; reflexivity. Qed.

Lemma wrap32_small (x : Z) : 0 <= x < 2 ^ 32 -> wrap32 x = x.
Proof. intros H. unfold wrap32. apply Z.mod_small. exact H. Qed.

Lemma wrap32_range (x : Z) : 0 <= wrap32 x < 2 ^ 32.
Proof. unfold wrap32. apply Z.mod_pos_bound. reflexivity. Qed.

(** The governor on a receive completion, below the threshold and at it. *)
Lemma governor_rearm (n t : Z) (s : list ascii) (rcr imr : Z) :
  wrap32 (n + BUFFER_SIZE) < MAX_BPS ->
  USART1_IrqHandler US_CSR_RXBUFF (mkMachine n t s (mkUsart rcr imr)) =
  (tt,
   state_of (USART_ReadBuffer BUFFER_SIZE
               (mkMachine (wrap32 (n + BUFFER_SIZE)) t s (mkUsart rcr imr))),
   log_of (USART_ReadBuffer BUFFER_SIZE
             (mkMachine (wrap32 (n + BUFFER_SIZE)) t s (mkUsart rcr imr)))).
Proof.
  intros H. apply Z.ltb_lt in H.
  unfold USART1_IrqHandler. rewrite RXBUFF_set.
  unfold_handler. rewrite H.
  destruct (rcr =? 0); reflexivity.
Qed.

Lemma governor_withhold (n t : Z) (s : list ascii) (rcr imr : Z) :
  MAX_BPS <= wrap32 (n + BUFFER_SIZE) ->
  USART1_IrqHandler US_CSR_RXBUFF (mkMachine n t s (mkUsart rcr imr)) =
  (tt, mkMachine (wrap32 (n + BUFFER_SIZE)) t s
         (mkUsart rcr (Z.ldiff imr US_IDR_RXBUFF)), []).
Proof.
  intros H. apply Z.ltb_ge in H.
  unfold USART1_IrqHandler. rewrite RXBUFF_set.
  unfold_handler. rewrite H. reflexivity.
Qed.

(** The reporter on a tick, with reception stopped and with it running. *)
Lemma reporter_resume (n t : Z) (s : list ascii) (imr : Z) :
  let t' := wrap32 (t + n) in
  let s' := store_bytes s (sprintf_bytes n t') in
  TC0_IrqHandler TC_SR_CPCS (mkMachine n t s (mkUsart 0 imr)) =
  (tt, mkMachine 0 t' s' (mkUsart BUFFER_SIZE (Z.lor imr US_IER_RXBUFF)),
   [WriteBuffer (firstn sizeof_pString s'); ReadBuffer BUFFER_SIZE 1]).
Proof.
  unfold TC0_IrqHandler. rewrite CPCS_set. unfold_handler. reflexivity.
Qed.

Lemma reporter_running (n t : Z) (s : list ascii) (rcr imr : Z) :
  rcr <> 0 ->
  let t' := wrap32 (t + n) in
  let s' := store_bytes s (sprintf_bytes n t') in
  TC0_IrqHandler TC_SR_CPCS (mkMachine n t s (mkUsart rcr imr)) =
  (tt, mkMachine 0 t' s' (mkUsart rcr imr),
   [WriteBuffer (firstn sizeof_pString s')]).
Proof.
  intros H. apply Z.eqb_neq in H.
  unfold TC0_IrqHandler. rewrite CPCS_set. unfold_handler. rewrite H. reflexivity.
Qed.

(** ** Formatting: lengths *)

Lemma utoa_aux_length (fuel : nat) :
  forall (k : nat) (n : Z) (acc : list ascii),
    (1 <= k <= fuel)%nat -> 0 <= n < 10 ^ Z.of_nat k ->
    (length (utoa_aux fuel n acc) <= k + length acc)%nat.
Proof.
  induction fuel as [|fuel IH]; intros k n acc Hk Hn; [lia|].
  cbn [utoa_aux]. destruct (n / 10 =? 0) eqn:Hq.
  - cbn [length]. lia.
  - apply Z.eqb_neq in Hq.
    destruct k as [|k]; [lia|].
    destruct k as [|k].
    + exfalso. apply Hq. apply Z.div_small. exact Hn.
    + specialize (IH (S k) (n / 10) (digit (n mod 10) :: acc)).
      cbn [length] in IH.
      assert (Hdiv : 0 <= n / 10 < 10 ^ Z.of_nat (S k)).
      { split; [apply Z.div_pos; lia|].
        apply Z.div_lt_upper_bound; [lia|].
        rewrite (Nat2Z.inj_succ (S k)), Z.pow_succ_r in Hn by lia. lia. }
      specialize (IH ltac:(lia) Hdiv). lia.
Qed.

Lemma utoa_length (k : nat) (n : Z) :
  (1 <= k <= 10)%nat -> 0 <= n < 10 ^ Z.of_nat k -> (length (utoa n) <= k)%nat.
Proof.
  intros Hk Hn. unfold utoa.
  pose proof (utoa_aux_length 10 k n [] Hk Hn) as H. cbn [length] in H. lia.
Qed.

Lemma fmt_u_length_min (w : nat) (n : Z) : (w <= length (fmt_u w n))%nat.
Proof. unfold fmt_u. rewrite length_app, repeat_length. lia. Qed.

Lemma fmt_u_length_fit (w : nat) (n : Z) :
  (length (utoa n) <= w)%nat -> length (fmt_u w n) = w.
Proof. intros H. unfold fmt_u. rewrite length_app, repeat_length. lia. Qed.

Lemma report_chars_length_min (bps tot : Z) :
  (sizeof_pString <= length (report_chars bps tot))%nat.
Proof.
  unfold report_chars. rewrite !length_app.
  pose proof (fmt_u_length_min 4 bps). pose proof (fmt_u_length_min 6 tot).
  cbn [list_ascii_of_string length]. unfold sizeof_pString. lia.
Qed.

Lemma report_chars_length_fit (bps tot : Z) :
  0 <= bps < 10 ^ 4 -> 0 <= tot < 10 ^ 6 ->
  length (report_chars bps tot) = sizeof_pString.
Proof.
  intros Hb Ht. unfold report_chars. rewrite !length_app.
  rewrite (fmt_u_length_fit 4 bps) by (apply utoa_length; [lia | exact Hb]).
  rewrite (fmt_u_length_fit 6 tot) by (apply utoa_length; [lia | exact Ht]).
  reflexivity.
Qed.

(** What [pString] holds after the [sprintf]: the first [sizeof(pString)]
    bytes of the output. *)
Lemma store_sprintf (s : list ascii) (bps tot : Z) :
  length s = sizeof_pString ->
  store_bytes s (sprintf_bytes bps tot) =
  firstn sizeof_pString (report_chars bps tot).
Proof.
  intros Hs. unfold store_bytes, sprintf_bytes.
  pose proof (report_chars_length_min bps tot) as Hmin.
  rewrite Hs. rewrite skipn_all2 by (rewrite length_app, Hs; cbn [length]; lia).
  rewrite app_nil_r. rewrite firstn_app.
  replace (sizeof_pString - length (report_chars bps tot))%nat with 0%nat by lia.
  cbn [firstn]. apply app_nil_r.
Qed.

Lemma firstn_sizeof_length (bps tot : Z) :
  length (firstn sizeof_pString (report_chars bps tot)) = sizeof_pString.
Proof.
  rewrite length_firstn. pose proof (report_chars_length_min bps tot). lia.
Qed.


(** [utoa] yields the decimal digits of its argument: read back, they give
    the number. *)
Lemma digit_value (d : Z) :
  0 <= d < 10 -> Z.of_nat (nat_of_ascii (digit d)) - 48 = d.
Proof.
  intros Hd. unfold digit. rewrite nat_ascii_embedding by lia. lia.
Qed.

Lemma utoa_aux_value (fuel : nat) :
  forall (n : Z) (acc : list ascii),
    0 <= n < 10 ^ Z.of_nat fuel ->
    digits_value (utoa_aux fuel n acc) 0 = digits_value acc n.
Proof.
  induction fuel as [|fuel IH]; intros n acc Hn.
  - cbn [utoa_aux]. change (10 ^ Z.of_nat 0) with 1 in Hn.
    replace n with 0 by lia. reflexivity.
  - cbn [utoa_aux].
    pose proof (Z.mod_pos_bound n 10 eq_refl) as Hm.
    pose proof (Z.div_mod n 10 ltac:(discriminate)) as Hdm.
    destruct (n / 10 =? 0) eqn:Hq.
    + apply Z.eqb_eq in Hq. unfold digits_value. cbn [fold_left].
      rewrite digit_value by exact Hm. f_equal. lia.
    + rewrite IH.
      * unfold digits_value. cbn [fold_left].
        rewrite digit_value by exact Hm. f_equal. lia.
      * rewrite Nat2Z.inj_succ, Z.pow_succ_r in Hn by lia.
        split; [apply Z.div_pos; lia|].
        apply Z.div_lt_upper_bound; lia.
Qed.

Lemma utoa_value (n : Z) : 0 <= n < 2 ^ 32 -> digits_value (utoa n) 0 = n.
Proof.
  intros Hn. unfold utoa. rewrite utoa_aux_value; [reflexivity|].
  change (10 ^ Z.of_nat 10) with 10000000000. change (2 ^ 32) with 4294967296 in Hn.
  lia.
Qed.

(** ** The invariant *)

Lemma Some_pair_inv {A B : Type} (a a' : A) (b b' : B) :
  Some (a, b) = Some (a', b') -> a = a' /\ b = b'.
Proof. intros H. inversion H. split; reflexivity. Qed.

Lemma USART_ReadBuffer_idle (size n t : Z) (s : list ascii) (imr : Z) :
  USART_ReadBuffer size (mkMachine n t s (mkUsart 0 imr)) =
  (1, mkMachine n t s (mkUsart size imr), [ReadBuffer size 1]).
Proof. reflexivity. Qed.

Lemma USART_ReadBuffer_busy (size n t : Z) (s : list ascii) (rcr imr : Z) :
  rcr <> 0 ->
  USART_ReadBuffer size (mkMachine n t s (mkUsart rcr imr)) =
  (0, mkMachine n t s (mkUsart rcr imr), [ReadBuffer size 0]).
Proof.
  intros H. apply Z.eqb_neq in H. unfold_handler. rewrite H. reflexivity.
Qed.

Lemma Inv_boot : Inv boot_state.
Proof.
  unfold Inv. split; [reflexivity|]. split; [split; [discriminate | reflexivity]|].
  left. split; [reflexivity|]. split; [reflexivity|].
  split; [discriminate | reflexivity].
Qed.

(** A receive completion in a state that satisfies the invariant. *)
Lemma step_rx (m m' : Machine) (l : list Action) :
  Inv m -> step RxComplete m = Some (m', l) ->
  Inv m' /\
  bytesReceived m < MAX_BPS /\
  bytesReceived m' = bytesReceived m + BUFFER_SIZE /\
  bytesTotal m' = bytesTotal m /\
  pString m' = pString m /\
  l = (if bytesReceived m' <? MAX_BPS then [ReadBuffer BUFFER_SIZE 1] else []).
Proof.
  destruct m as [n t s [rcr imr]]. unfold Inv.
  cbn [bytesReceived bytesTotal pString BOARD_USART_BASE US_RCR US_IMR].
  intros (Hs & Ht & [(Hr & Hi & Hn) | (Hr & Hi & Hn)]) Hstep; subst rcr imr;
    unfold step in Hstep; cbn [BOARD_USART_BASE] in Hstep.
  - change (armed (mkUsart BUFFER_SIZE US_IER_RXBUFF) &&
            rx_irq_enabled (mkUsart BUFFER_SIZE US_IER_RXBUFF)) with true in Hstep.
    cbv iota in Hstep.
    change (pdc_complete (mkMachine n t s (mkUsart BUFFER_SIZE US_IER_RXBUFF)))
      with (mkMachine n t s (mkUsart 0 US_IER_RXBUFF)) in Hstep.
    pose proof threshold_fits as [Hpos Hfit]. pose proof BUFFER_SIZE_pos as Hb.
    assert (Hw : wrap32 (n + BUFFER_SIZE) = n + BUFFER_SIZE)
      by (apply wrap32_small; lia).
    destruct (Z.lt_ge_cases (n + BUFFER_SIZE) MAX_BPS) as [Hlt | Hge].
    + rewrite governor_rearm in Hstep by (rewrite Hw; exact Hlt).
      rewrite USART_ReadBuffer_idle, Hw in Hstep.
      unfold state_of, log_of in Hstep. cbn [fst snd] in Hstep.
      apply Some_pair_inv in Hstep as [<- <-].
      cbn [bytesReceived bytesTotal pString BOARD_USART_BASE US_RCR US_IMR].
      apply Z.ltb_lt in Hlt as Hlt'. rewrite Hlt'.
      repeat split; try reflexivity; try lia.
    + rewrite governor_withhold in Hstep by (rewrite Hw; exact Hge).
      rewrite Hw in Hstep.
      unfold state_of, log_of in Hstep. cbn [fst snd] in Hstep.
      apply Some_pair_inv in Hstep as [<- <-].
      cbn [bytesReceived bytesTotal pString BOARD_USART_BASE US_RCR US_IMR].
      apply Z.ltb_ge in Hge as Hge'. rewrite Hge'.
      repeat split; try reflexivity; try lia.
      right. repeat split; try reflexivity; lia.
  - discriminate Hstep.
Qed.

(** A tick in a state that satisfies the invariant. *)
Lemma step_tick (m m' : Machine) (l : list Action) :
  Inv m -> step Tick m = Some (m', l) ->
  Inv m' /\
  bytesReceived m' = 0 /\
  bytesTotal m' = wrap32 (bytesTotal m + bytesReceived m) /\
  pString m' = firstn sizeof_pString (report_chars (bytesReceived m) (bytesTotal m')) /\
  BOARD_USART_BASE m' = mkUsart BUFFER_SIZE US_IER_RXBUFF /\
  l = WriteBuffer (pString m') ::
      (if US_RCR (BOARD_USART_BASE m) =? 0 then [ReadBuffer BUFFER_SIZE 1] else []).
Proof.
  destruct m as [n t s [rcr imr]]. unfold Inv.
  cbn [bytesReceived bytesTotal pString BOARD_USART_BASE US_RCR US_IMR].
  pose proof threshold_fits as [Hpos Hfit]. pose proof BUFFER_SIZE_pos as Hb.
  pose proof (wrap32_range (t + n)) as Hrange.
  intros (Hs & Ht & [(Hr & Hi & Hn) | (Hr & Hi & Hn)]) Hstep; subst rcr imr;
    unfold step in Hstep.
  - rewrite reporter_running in Hstep by lia.
    cbv [state_of log_of fst snd] in Hstep.
    apply Some_pair_inv in Hstep as [<- <-].
    cbv [bytesReceived bytesTotal pString BOARD_USART_BASE US_RCR US_IMR].
    rewrite store_sprintf by exact Hs.
    rewrite firstn_firstn, Nat.min_id.
    replace (BUFFER_SIZE =? 0) with false by (symmetry; apply Z.eqb_neq; lia).
    repeat split; try reflexivity; try lia; try apply firstn_sizeof_length.
    all: left; repeat split; try reflexivity; lia.
  - rewrite reporter_resume in Hstep.
    cbv [state_of log_of fst snd] in Hstep.
    apply Some_pair_inv in Hstep as [<- <-].
    cbv [bytesReceived bytesTotal pString BOARD_USART_BASE US_RCR US_IMR].
    rewrite store_sprintf by exact Hs.
    rewrite firstn_firstn, Nat.min_id.
    change (0 =? 0) with true. change (Z.lor 0 US_IER_RXBUFF) with US_IER_RXBUFF.
    repeat split; try reflexivity; try lia; try apply firstn_sizeof_length.
    all: left; repeat split; try reflexivity; lia.
Qed.

Lemma step_Inv (e : Event) (m m' : Machine) (l : list Action) :
  Inv m -> step e m = Some (m', l) -> Inv m'.
Proof.
  intros HI Hs. destruct e.
  - apply (step_rx m m' l HI Hs).
  - apply (step_tick m m' l HI Hs).
Qed.

(** Inversion of a run on its first event. *)
Lemma run_cons (e : Event) (evs : list Event) (m m' : Machine) (l : list Action) :
  run (e :: evs) m = Some (m', l) ->
  exists m1 l1 l2,
    step e m = Some (m1, l1) /\ run evs m1 = Some (m', l2) /\ l = l1 ++ l2.
Proof.
  cbn [run]. destruct (step e m) as [[m1 l1]|]; [|discriminate].
  destruct (run evs m1) as [[m2 l2]|] eqn:Hr; [|discriminate].
  intros H. apply Some_pair_inv in H as [<- <-]. exists m1, l1, l2. auto.
Qed.

Lemma run_app (evs1 evs2 : list Event) :
  forall (m m1 m2 : Machine) (l1 l2 : list Action),
    run evs1 m = Some (m1, l1) -> run evs2 m1 = Some (m2, l2) ->
    run (evs1 ++ evs2) m = Some (m2, l1 ++ l2).
Proof.
  induction evs1 as [|e evs1 IH]; intros m m1 m2 l1 l2 H1 H2.
  - injection H1 as <- <-. exact H2.
  - apply run_cons in H1 as (ma & la & lb & Hs & Hr & ->).
    cbn [app run]. rewrite Hs. rewrite (IH ma m1 m2 lb l2 Hr H2).
    now rewrite app_assoc.
Qed.

Lemma run_Inv (evs : list Event) :
  forall (m m' : Machine) (l : list Action),
    Inv m -> run evs m = Some (m', l) -> Inv m'.
Proof.
  induction evs as [|e evs IH]; intros m m' l HI Hr.
  - injection Hr as <- _. exact HI.
  - apply run_cons in Hr as (m1 & l1 & l2 & Hs & Hr & _).
    apply (IH m1 m' l2); [|exact Hr]. exact (step_Inv e m m1 l1 HI Hs).
Qed.

Lemma reachable_Inv (m : Machine) : reachable m -> Inv m.
Proof. intros (evs & l & Hr). exact (run_Inv evs boot_state m l Inv_boot Hr). Qed.

Lemma reachable_step (e : Event) (m m' : Machine) (l : list Action) :
  reachable m -> step e m = Some (m', l) -> reachable m'.
Proof.
  intros (evs & l0 & Hr) Hs. exists (evs ++ [e]), (l0 ++ (l ++ [])).
  apply (run_app evs [e] boot_state m m' l0 (l ++ []) Hr).
  cbn [run]. rewrite Hs. reflexivity.
Qed.

Lemma reachable_run (evs : list Event) (m m' : Machine) (l : list Action) :
  reachable m -> run evs m = Some (m', l) -> reachable m'.
Proof.
  intros (evs0 & l0 & Hr0) Hr. exists (evs0 ++ evs), (l0 ++ l).
  exact (run_app evs0 evs boot_state m m' l0 l Hr0 Hr).
Qed.

(** ** Receive completions and ticks in reachable states *)

Lemma USART1_IrqHandler_status (status : Z) (m : Machine) :
  USART1_IrqHandler status m =
  if Z.land status US_CSR_RXBUFF =? US_CSR_RXBUFF
  then USART1_IrqHandler US_CSR_RXBUFF m
  else (tt, m, []).
Proof.
  unfold USART1_IrqHandler. rewrite RXBUFF_set.
  destruct (Z.land status US_CSR_RXBUFF =? US_CSR_RXBUFF); reflexivity.
Qed.

Lemma rx_enabled (m : Machine) :
  Inv m -> bytesReceived m < MAX_BPS ->
  exists m' l, step RxComplete m = Some (m', l).
Proof.
  destruct m as [n t s [rcr imr]]. unfold Inv.
  cbv [bytesReceived bytesTotal pString BOARD_USART_BASE US_RCR US_IMR].
  intros (_ & _ & [(-> & -> & _) | (_ & _ & Hn)]) Hlt; [|lia].
  unfold step. cbv [BOARD_USART_BASE].
  change (armed (mkUsart BUFFER_SIZE US_IER_RXBUFF) &&
          rx_irq_enabled (mkUsart BUFFER_SIZE US_IER_RXBUFF)) with true.
  cbv iota. eexists. eexists. reflexivity.
Qed.

Lemma rx_disabled (m : Machine) :
  Inv m -> MAX_BPS <= bytesReceived m ->
  step RxComplete m = None /\
  flow_control_asserted (BOARD_USART_BASE m) = true /\
  rx_irq_enabled (BOARD_USART_BASE m) = false.
Proof.
  destruct m as [n t s [rcr imr]]. unfold Inv.
  cbv [bytesReceived bytesTotal pString BOARD_USART_BASE US_RCR US_IMR].
  intros (_ & _ & [(_ & _ & Hn) | (-> & -> & _)]) Hge; [lia|].
  repeat split.
Qed.

Lemma tick_enabled (m : Machine) : exists m' l, step Tick m = Some (m', l).
Proof. unfold step. eexists. eexists. reflexivity. Qed.

(** A handler that finds the count at or past the threshold requests nothing. *)
Lemma governor_quiet_past_threshold (status : Z) (m : Machine) :
  MAX_BPS <= bytesReceived m <= MAX_BPS + (BUFFER_SIZE - 1) ->
  arms (log_of (USART1_IrqHandler status m)) = [].
Proof.
  intros Hn. rewrite USART1_IrqHandler_status.
  destruct (Z.land status US_CSR_RXBUFF =? US_CSR_RXBUFF); [|reflexivity].
  destruct m as [n t s [rcr imr]].
  cbv [bytesReceived] in Hn.
  pose proof threshold_fits as [Hpos Hfit]. pose proof BUFFER_SIZE_pos as Hb.
  rewrite governor_withhold; [reflexivity|].
  unfold wrap32. destruct (Z.lt_ge_cases (n + BUFFER_SIZE) (2 ^ 32)) as [Hs | Hl].
  - rewrite Z.mod_small by lia. lia.
  - exfalso. unfold MAX_BPS, BUFFER_SIZE in *. lia.
Qed.

Lemma reports_app (l1 l2 : list Action) : reports (l1 ++ l2) = reports l1 ++ reports l2.
Proof. unfold reports. apply flat_map_app. Qed.

Lemma arms_app (l1 l2 : list Action) : arms (l1 ++ l2) = arms l1 ++ arms l2.
Proof. unfold arms. apply flat_map_app. Qed.

(** A stretch of receive completions, with no tick in between. *)
Lemma run_epoch (evs : list Event) :
  forall (m m' : Machine) (l : list Action),
    Inv m -> existsb is_tick evs = false -> run evs m = Some (m', l) ->
    bytesReceived m' = bytesReceived m + Z.of_nat (length evs) * BUFFER_SIZE /\
    bytesTotal m' = bytesTotal m /\
    pString m' = pString m /\
    reports l = [].
Proof.
  induction evs as [|e evs IH]; intros m m' l HI Hev Hr.
  - apply Some_pair_inv in Hr as [<- <-]. cbn [length]. repeat split. lia.
  - apply run_cons in Hr as (m1 & l1 & l2 & Hs & Hr & ->).
    destruct e; [|discriminate Hev]. cbn [existsb is_tick orb] in Hev.
    destruct (step_rx m m1 l1 HI Hs) as (HI1 & _ & Hn & Ht & Hp & Hl).
    destruct (IH m1 m' l2 HI1 Hev Hr) as (Hn' & Ht' & Hp' & Hl').
    rewrite reports_app, Hl', Hl.
    cbn [length]. rewrite Nat2Z.inj_succ.
    repeat split; try congruence; try lia.
    destruct (bytesReceived m1 <? MAX_BPS); reflexivity.
Qed.

Lemma epoch_start_Inv (m : Machine) : epoch_start m -> Inv m /\ bytesReceived m = 0.
Proof.
  intros [-> | (m0 & l0 & Hreach & Hs)].
  - split; [exact Inv_boot | reflexivity].
  - destruct (step_tick m0 m l0 (reachable_Inv m0 Hreach) Hs) as (HI & Hn & _).
    split; assumption.
Qed.

Lemma reachable_boot : reachable boot_state.
Proof. exists [], []. reflexivity. Qed.

Lemma reachable_threshold_eve : reachable threshold_eve.
Proof.
  exists (repeat RxComplete 499), (repeat (ReadBuffer 1 1) 499).
  vm_compute. reflexivity.
Qed.

Lemma reachable_at_threshold : reachable at_threshold.
Proof.
  exists (repeat RxComplete 500), (repeat (ReadBuffer 1 1) 499).
  vm_compute. reflexivity.
Qed.

(** ** C1: the Rate Governor *)

(** C1.  On every receive completion the Governor first adds [BUFFER_SIZE]
    to [bytesReceived]; it then requests exactly one [BUFFER_SIZE]-byte
    receive if the new count is below [MAX_BPS], and requests nothing
    otherwise.  Once the count has reached [MAX_BPS] the receive interrupt is
    off and no completion is delivered, so the Governor requests nothing more
    before the next tick; even if it were entered, it would request nothing. *)
Theorem governor_counts_then_rearms_below_threshold
    (m m' : Machine) (l : list Action) :
  reachable m ->
  step RxComplete m = Some (m', l) ->
  bytesReceived m' = bytesReceived m + BUFFER_SIZE /\
  (bytesReceived m' < MAX_BPS -> l = [ReadBuffer BUFFER_SIZE 1]) /\
  (MAX_BPS <= bytesReceived m' ->
     l = [] /\
     step RxComplete m' = None /\
     rx_irq_enabled (BOARD_USART_BASE m') = false /\
     forall status, arms (log_of (USART1_IrqHandler status m')) = []).
Proof.
  intros Hreach Hs.
  destruct (step_rx m m' l (reachable_Inv m Hreach) Hs)
    as (HI & _ & Hn & _ & _ & Hl).
  split; [exact Hn|]. split.
  - intros Hlt. apply Z.ltb_lt in Hlt. rewrite Hlt in Hl. exact Hl.
  - intros Hge. apply Z.ltb_ge in Hge as Hge'. rewrite Hge' in Hl.
    destruct (rx_disabled m' HI Hge) as (Hnone & _ & Hoff).
    repeat split; try assumption.
    intros status. apply governor_quiet_past_threshold.
    destruct HI as (_ & _ & [(_ & _ & Hb) | (_ & _ & Hb)]); lia.
Qed.

Lemma governor_counts_then_rearms_below_threshold_witness :
  reachable threshold_eve /\
  step RxComplete threshold_eve = Some (at_threshold, []) /\
  bytesReceived at_threshold = bytesReceived threshold_eve + BUFFER_SIZE /\
  (bytesReceived at_threshold < MAX_BPS -> [] = [ReadBuffer BUFFER_SIZE 1]) /\
  (MAX_BPS <= bytesReceived at_threshold ->
     @nil Action = [] /\
     step RxComplete at_threshold = None /\
     rx_irq_enabled (BOARD_USART_BASE at_threshold) = false /\
     forall status, arms (log_of (USART1_IrqHandler status at_threshold)) = []).
Proof.
  split; [exact reachable_threshold_eve|].
  split; [reflexivity|].
  apply (governor_counts_then_rearms_below_threshold threshold_eve at_threshold []).
  - exact reachable_threshold_eve.
  - reflexivity.
Defined.

(** The scenario of the specification: the threshold is reached before the
    first tick, no further completion is delivered, the first report reads
    500 and 500, reception resumes, and a second tick with nothing received
    reports 0 and 500. *)
Example threshold_then_two_ticks :
  step RxComplete at_threshold = None /\
  exists m l,
    run (repeat RxComplete 500 ++ [Tick; Tick]) boot_state = Some (m, l) /\
    map string_of_list_ascii (reports l) =
      [("Bps:  500; Tot:    500" ++ String LF (String CR EmptyString))%string;
       ("Bps:    0; Tot:    500" ++ String LF (String CR EmptyString))%string] /\
    arms l = repeat BUFFER_SIZE 500 /\
    armed (BOARD_USART_BASE m) = true.
Proof.
  split; [reflexivity|].
  eexists. eexists. split; [vm_compute; reflexivity|].
  split; [reflexivity|]. split; vm_compute; reflexivity.
Qed.

(** ** C3: conservation within an epoch *)



(** ** C4: one report per tick *)

Lemma run_reports (evs : list Event) :
  forall (m m' : Machine) (l : list Action),
    Inv m -> run evs m = Some (m', l) ->
    length (reports l) = length (filter is_tick evs).
Proof.
  induction evs as [|e evs IH]; intros m m' l HI Hr.
  - apply Some_pair_inv in Hr as [_ <-]. reflexivity.
  - apply run_cons in Hr as (m1 & l1 & l2 & Hs & Hr & ->).
    rewrite reports_app, length_app.
    rewrite (IH m1 m' l2 (step_Inv e m m1 l1 HI Hs) Hr).
    destruct e; cbn [filter is_tick length].
    + destruct (step_rx m m1 l1 HI Hs) as (_ & _ & _ & _ & _ & ->).
      destruct (bytesReceived m1 <? MAX_BPS); reflexivity.
    + destruct (step_tick m m1 l1 HI Hs) as (_ & _ & _ & _ & _ & ->).
      destruct (US_RCR (BOARD_USART_BASE m) =? 0); reflexivity.
Qed.

(** C4.  In any run of the program, the number of report records handed to
    the output equals the number of ticks, whatever was received in between;
    a tick that samples a zero count reports all the same. *)
Theorem one_report_per_tick (evs : list Event) (m : Machine) (l : list Action) :
  run evs boot_state = Some (m, l) ->
  length (reports l) = length (filter is_tick evs) /\
  (forall m' l', bytesReceived m = 0 -> step Tick m = Some (m', l') ->
     reports l' = [firstn sizeof_pString (report_chars 0 (bytesTotal m))]).
Proof.
  intros Hr. split; [exact (run_reports evs boot_state m l Inv_boot Hr)|].
  intros m' l' H0 Hs.
  pose proof (run_Inv evs boot_state m l Inv_boot Hr) as HI.
  destruct (step_tick m m' l' HI Hs) as (_ & _ & Ht & Hp & _ & ->).
  rewrite H0, Z.add_0_r, wrap32_small in Ht by apply HI.
  rewrite Hp, H0, Ht.
  destruct (US_RCR (BOARD_USART_BASE m) =? 0); reflexivity.
Qed.

Lemma one_report_per_tick_witness :
  let evs := [Tick; RxComplete; RxComplete; Tick; Tick] in
  let idle := firstn sizeof_pString (report_chars 0 0) in
  let busy := firstn sizeof_pString (report_chars 2 2) in
  let quiet := firstn sizeof_pString (report_chars 0 2) in
  let m := mkMachine 0 2 quiet (mkUsart 1 4096) in
  let l := [WriteBuffer idle; ReadBuffer 1 1; ReadBuffer 1 1;
            WriteBuffer busy; WriteBuffer quiet] in
  run evs boot_state = Some (m, l) /\
  length (reports l) = 3%nat /\
  (forall m' l', bytesReceived m = 0 -> step Tick m = Some (m', l') ->
     reports l' = [firstn sizeof_pString (report_chars 0 (bytesTotal m))]).
Proof.
  intros evs idle busy quiet m l.
  split; [reflexivity|].
  apply (one_report_per_tick evs m l). reflexivity.
Defined.

(** ** C5: resumption *)

(** C5.  When the Governor has handled a completion without requesting a
    new receive (the count reached [MAX_BPS]), flow control is asserted, and
    the tick that ends the epoch requests one [BUFFER_SIZE]-byte receive,
    which is accepted, and re-enables the receive interrupt: on return
    reception is armed and flow control is released. *)
Theorem reporter_resumes_suspended_intake
    (m0 m1 : Machine) (l1 : list Action) :
  reachable m0 ->
  step RxComplete m0 = Some (m1, l1) ->
  arms l1 = [] ->
  flow_control_asserted (BOARD_USART_BASE m1) = true /\
  exists m2 l2,
    step Tick m1 = Some (m2, l2) /\
    l2 = [WriteBuffer (pString m2); ReadBuffer BUFFER_SIZE 1] /\
    US_RCR (BOARD_USART_BASE m2) = BUFFER_SIZE /\
    armed (BOARD_USART_BASE m2) = true /\
    rx_irq_enabled (BOARD_USART_BASE m2) = true /\
    flow_control_asserted (BOARD_USART_BASE m2) = false.
Proof.
  intros Hreach Hs Harm.
  destruct (step_rx m0 m1 l1 (reachable_Inv m0 Hreach) Hs)
    as (HI & _ & _ & _ & _ & Hl).
  destruct (bytesReceived m1 <? MAX_BPS) eqn:Hcmp;
    [rewrite Hl in Harm; discriminate Harm|].
  apply Z.ltb_ge in Hcmp.
  destruct (rx_disabled m1 HI Hcmp) as (_ & Hfc & _).
  split; [exact Hfc|].
  destruct (tick_enabled m1) as (m2 & l2 & Ht).
  exists m2, l2. split; [exact Ht|].
  destruct (step_tick m1 m2 l2 HI Ht) as (_ & _ & _ & _ & Hu & ->).
  unfold flow_control_asserted in Hfc. rewrite Hfc, Hu.
  repeat split.
Qed.

Lemma reporter_resumes_suspended_intake_witness :
  reachable threshold_eve /\
  step RxComplete threshold_eve = Some (at_threshold, []) /\
  arms [] = [] /\
  flow_control_asserted (BOARD_USART_BASE at_threshold) = true /\
  exists m2 l2,
    step Tick at_threshold = Some (m2, l2) /\
    l2 = [WriteBuffer (pString m2); ReadBuffer BUFFER_SIZE 1] /\
    US_RCR (BOARD_USART_BASE m2) = BUFFER_SIZE /\
    armed (BOARD_USART_BASE m2) = true /\
    rx_irq_enabled (BOARD_USART_BASE m2) = true /\
    flow_control_asserted (BOARD_USART_BASE m2) = false.
Proof.
  split; [exact reachable_threshold_eve|].
  split; [reflexivity|]. split; [reflexivity|].
  apply (reporter_resumes_suspended_intake threshold_eve at_threshold []).
  - exact reachable_threshold_eve.
  - reflexivity.
  - reflexivity.
Defined.

(** ** C6: the bound on the epoch count *)

(** C6.  In every reachable state [bytesReceived] is at most
    [MAX_BPS + (BUFFER_SIZE - 1)], and either handler leaves it so. *)
Theorem epoch_count_bounded (m : Machine) :
  reachable m ->
  0 <= bytesReceived m <= MAX_BPS + (BUFFER_SIZE - 1) /\
  (forall e m' l, step e m = Some (m', l) ->
     0 <= bytesReceived m' <= MAX_BPS + (BUFFER_SIZE - 1)).
Proof.
  assert (Hbound : forall x, Inv x ->
            0 <= bytesReceived x <= MAX_BPS + (BUFFER_SIZE - 1)).
  { intros x (_ & _ & [(_ & _ & Hb) | (_ & _ & Hb)]);
      pose proof threshold_fits; pose proof BUFFER_SIZE_pos; lia. }
  intros Hreach. split.
  - apply Hbound, reachable_Inv, Hreach.
  - intros e m' l Hs. apply Hbound.
    exact (step_Inv e m m' l (reachable_Inv m Hreach) Hs).
Qed.

Lemma epoch_count_bounded_witness :
  reachable at_threshold /\
  0 <= bytesReceived at_threshold <= MAX_BPS + (BUFFER_SIZE - 1) /\
  (forall e m' l, step e at_threshold = Some (m', l) ->
     0 <= bytesReceived m' <= MAX_BPS + (BUFFER_SIZE - 1)).
Proof.
  split; [exact reachable_at_threshold|].
  apply (epoch_count_bounded at_threshold). exact reachable_at_threshold.
Defined.

(** ** Busy epochs: how the totals of the counterexamples are reached *)

Lemma run_rx_exists (n : nat) :
  forall m : Machine,
    Inv m ->
    bytesReceived m + Z.of_nat n * BUFFER_SIZE < MAX_BPS + BUFFER_SIZE ->
    exists m' l, run (repeat RxComplete n) m = Some (m', l).
Proof.
  pose proof BUFFER_SIZE_pos as Hb.
  induction n as [|n IH]; intros m HI Hn.
  - exists m, []. reflexivity.
  - rewrite Nat2Z.inj_succ in Hn.
    destruct (rx_enabled m HI) as (m1 & l1 & Hs); [nia|].
    destruct (step_rx m m1 l1 HI Hs) as (HI1 & _ & Hn1 & _).
    destruct (IH m1 HI1) as (m' & l' & Hr); [nia|].
    exists m', (l1 ++ l'). cbn [repeat run]. rewrite Hs, Hr. reflexivity.
Qed.

Lemma Machine_eq (m : Machine) (n t : Z) (s : list ascii) (u : Usart) :
  bytesReceived m = n -> bytesTotal m = t -> pString m = s ->
  BOARD_USART_BASE m = u -> m = mkMachine n t s u.
Proof. destruct m. cbv [bytesReceived bytesTotal pString BOARD_USART_BASE]. congruence. Qed.

Lemma run_to_threshold (m : Machine) :
  Inv m -> bytesReceived m = 0 ->
  exists l, run (repeat RxComplete 500) m =
            Some (stopped (bytesTotal m) (pString m), l).
Proof.
  intros HI H0.
  destruct (run_rx_exists 500 m HI) as (m' & l & Hr).
  { rewrite H0. reflexivity. }
  exists l. rewrite Hr. f_equal. f_equal.
  destruct (run_epoch (repeat RxComplete 500) m m' l HI) as (Hn & Ht & Hp & _);
    [reflexivity | exact Hr |].
  rewrite H0, repeat_length in Hn.
  pose proof (run_Inv _ m m' l HI Hr) as (_ & _ & [(_ & _ & Hb) | (Hrcr & Himr & _)]).
  - exfalso. rewrite Hn in Hb. unfold MAX_BPS, BUFFER_SIZE in Hb. lia.
  - apply Machine_eq; try assumption.
    destruct (BOARD_USART_BASE m'). cbv [US_RCR US_IMR] in *. congruence.
Qed.

Lemma tick_when_stopped (t : Z) (s : list ascii) :
  Inv (stopped t s) ->
  exists l, step Tick (stopped t s) = Some (ticked MAX_BPS (wrap32 (t + MAX_BPS)), l).
Proof.
  intros HI. destruct (tick_enabled (stopped t s)) as (m' & l & Hs).
  exists l. rewrite Hs. f_equal. f_equal.
  destruct (step_tick _ m' l HI Hs) as (_ & Hn & Ht & Hp & Hu & _).
  apply Machine_eq; try assumption.
  rewrite Hp, Ht. reflexivity.
Qed.

Lemma run_busy_epoch (m : Machine) :
  Inv m -> bytesReceived m = 0 ->
  exists l, run busy_epoch m =
            Some (ticked MAX_BPS (wrap32 (bytesTotal m + MAX_BPS)), l).
Proof.
  intros HI H0. destruct (run_to_threshold m HI H0) as (l1 & Hr1).
  pose proof (run_Inv _ m _ l1 HI Hr1) as HI1.
  destruct (tick_when_stopped _ _ HI1) as (l2 & Hs).
  exists (l1 ++ (l2 ++ [])). unfold busy_epoch.
  apply (run_app _ [Tick] m _ _ l1 (l2 ++ []) Hr1).
  cbn [run]. rewrite Hs. reflexivity.
Qed.




(** ** C7: the report line *)






(** ** C8: the running total *)



(** ** C9: a refused receive request *)

(** In the runs of the program no request is ever refused: the Governor asks
    right after a completion and the Reporter only when [US_RCR] is zero. *)
Lemma arm_failed_app (l1 l2 : list Action) :
  arm_failed (l1 ++ l2) = arm_failed l1 || arm_failed l2.
Proof. unfold arm_failed. apply existsb_app. Qed.

Lemma run_never_refused (evs : list Event) :
  forall (m m' : Machine) (l : list Action),
    Inv m -> run evs m = Some (m', l) -> arm_failed l = false.
Proof.
  induction evs as [|e evs IH]; intros m m' l HI Hr.
  - apply Some_pair_inv in Hr as [_ <-]. reflexivity.
  - apply run_cons in Hr as (m1 & l1 & l2 & Hs & Hr & ->).
    rewrite arm_failed_app, (IH m1 m' l2 (step_Inv e m m1 l1 HI Hs) Hr), orb_false_r.
    destruct e.
    + destruct (step_rx m m1 l1 HI Hs) as (_ & _ & _ & _ & _ & ->).
      destruct (bytesReceived m1 <? MAX_BPS); reflexivity.
    + destruct (step_tick m m1 l1 HI Hs) as (_ & _ & _ & _ & _ & ->).
      destruct (US_RCR (BOARD_USART_BASE m) =? 0); reflexivity.
Qed.

(** C9, as stated, fails: the request is refused, the handler returns as
    usual with the count updated and nothing else changed, and the next tick
    is served and reports as if nothing had happened. *)
Lemma refused_arm_goes_unnoticed :
  let r := USART1_IrqHandler US_CSR_RXBUFF busy_link in
  log_of r = [ReadBuffer BUFFER_SIZE 0] /\
  arm_failed (log_of r) = true /\
  state_of r = mkMachine 8 0 (repeat zero sizeof_pString) (mkUsart 1 4096) /\
  step Tick (state_of r) =
    Some (ticked 8 8, [WriteBuffer (firstn sizeof_pString (report_chars 8 8))]).
Proof. repeat split. Qed.

Lemma TC0_IrqHandler_status (dwStatus : Z) (m : Machine) :
  TC0_IrqHandler dwStatus m =
  if Z.land dwStatus TC_SR_CPCS =? TC_SR_CPCS
  then TC0_IrqHandler TC_SR_CPCS m
  else (tt, m, []).
Proof.
  unfold TC0_IrqHandler. rewrite CPCS_set.
  destruct (Z.land dwStatus TC_SR_CPCS =? TC_SR_CPCS); reflexivity.
Qed.

(** C9, amended.  A refused request is neither retried nor signalled.  When
    the Governor's request is refused, that request is the only library call
    of the invocation, the handler returns with the count updated and the
    rest of the state untouched, and the next tick is served.  The Reporter
    issues at most one request per tick, and only with [US_RCR] at zero,
    where it is accepted.  Start-up issues one request and goes on to enable
    the interrupt whatever the result. *)
Theorem refused_arm_not_retried_and_ignored (status : Z) (m : Machine) :
  arm_failed (log_of (USART1_IrqHandler status m)) = true ->
  (log_of (USART1_IrqHandler status m) = [ReadBuffer BUFFER_SIZE 0] /\
   state_of (USART1_IrqHandler status m) =
     mkMachine (wrap32 (bytesReceived m + BUFFER_SIZE)) (bytesTotal m)
       (pString m) (BOARD_USART_BASE m) /\
   exists m' l, step Tick (state_of (USART1_IrqHandler status m)) = Some (m', l)) /\
  (forall dwStatus m0,
     (length (arms (log_of (TC0_IrqHandler dwStatus m0))) <= 1)%nat /\
     arm_failed (log_of (TC0_IrqHandler dwStatus m0)) = false) /\
  (forall m0,
     length (arms (log_of (main_start m0))) = 1%nat /\
     US_IMR (BOARD_USART_BASE (state_of (main_start m0))) =
       Z.lor (US_IMR (BOARD_USART_BASE m0)) US_IER_RXBUFF).
Proof.
  intros Hfail. split; [|split].
  - rewrite USART1_IrqHandler_status in *.
    destruct (Z.land status US_CSR_RXBUFF =? US_CSR_RXBUFF); [|discriminate Hfail].
    destruct m as [n t s [rcr imr]].
    cbv [bytesReceived bytesTotal pString BOARD_USART_BASE].
    destruct (Z.lt_ge_cases (wrap32 (n + BUFFER_SIZE)) MAX_BPS) as [Hlt | Hge].
    + rewrite governor_rearm in * by exact Hlt.
      destruct (Z.eq_dec rcr 0) as [-> | Hbusy].
      * rewrite USART_ReadBuffer_idle in Hfail. discriminate Hfail.
      * rewrite USART_ReadBuffer_busy by exact Hbusy.
        split; [reflexivity|]. split; [reflexivity|]. apply tick_enabled.
    + rewrite governor_withhold in Hfail by exact Hge. discriminate Hfail.
  - intros dwStatus [n t s [rcr imr]]. rewrite TC0_IrqHandler_status.
    destruct (Z.land dwStatus TC_SR_CPCS =? TC_SR_CPCS);
      [|split; [apply Nat.le_0_l | reflexivity]].
    destruct (Z.eq_dec rcr 0) as [-> | Hbusy].
    + rewrite reporter_resume. split; [apply Nat.le_refl | reflexivity].
    + rewrite reporter_running by exact Hbusy.
      split; [apply Nat.le_0_l | reflexivity].
  - intros [n t s [rcr imr]]. unfold main_start. unfold_handler.
    destruct (rcr =? 0); split; reflexivity.
Qed.

Lemma refused_arm_not_retried_and_ignored_witness :
  arm_failed (log_of (USART1_IrqHandler US_CSR_RXBUFF busy_link)) = true /\
  log_of (USART1_IrqHandler US_CSR_RXBUFF busy_link) = [ReadBuffer BUFFER_SIZE 0] /\
  state_of (USART1_IrqHandler US_CSR_RXBUFF busy_link) =
    mkMachine 8 0 (repeat zero sizeof_pString) (mkUsart 1 4096).
Proof.
  split; [reflexivity|].
  destruct (refused_arm_not_retried_and_ignored US_CSR_RXBUFF busy_link eq_refl)
    as ((Hlog & Hstate & _) & _).
  split; [exact Hlog | exact Hstate].
Defined.

(** ** C10: [sprintf] and the size of [pString] *)

(** C10.  The format yields at least 24 characters, so with its terminating
    NUL [sprintf] always writes more than the [sizeof(pString)] bytes of the
    array: already for two zero counts it writes 25 bytes, and the NUL goes
    to [pString[24]], one past the end. *)
Theorem sprintf_writes_past_pString :
  (forall bps tot, (sizeof_pString < length (sprintf_bytes bps tot))%nat) /\
  length (sprintf_bytes 0 0) = S sizeof_pString /\
  nth_error (sprintf_bytes 0 0) sizeof_pString = Some zero.
Proof.
  split; [|split; reflexivity].
  intros bps tot. unfold sprintf_bytes. rewrite length_app.
  pose proof (report_chars_length_min bps tot). cbn [length]. lia.
Qed.

(** With counts that fit their fields the overrun is exactly the NUL. *)
Lemma sprintf_bytes_length_fit (bps tot : Z) :
  0 <= bps < 10 ^ 4 -> 0 <= tot < 10 ^ 6 ->
  length (sprintf_bytes bps tot) = S sizeof_pString.
Proof.
  intros Hb Ht. unfold sprintf_bytes.
  rewrite length_app, (report_chars_length_fit bps tot Hb Ht). cbn [length]. lia.
Qed.

(** * Further properties of the handlers and of whole runs *)

(** ** Arming, interrupt mask and count go together *)

Lemma Inv_armed (m : Machine) :
  Inv m ->
  armed (BOARD_USART_BASE m) = (bytesReceived m <? MAX_BPS) /\
  rx_irq_enabled (BOARD_USART_BASE m) = armed (BOARD_USART_BASE m) /\
  US_RCR (BOARD_USART_BASE m) = outstanding (BOARD_USART_BASE m) * BUFFER_SIZE.
Proof.
  destruct m as [n t s [rcr imr]]. unfold Inv.
  cbv [bytesReceived bytesTotal pString BOARD_USART_BASE US_RCR US_IMR].
  intros (_ & _ & [(-> & -> & Hn) | (-> & -> & Hn)]).
  - replace (n <? MAX_BPS) with true by (symmetry; apply Z.ltb_lt; lia).
    repeat split.
  - replace (n <? MAX_BPS) with false by (symmetry; apply Z.ltb_ge; lia).
    repeat split.
Qed.



(** ** No request is ever refused *)

(** X3.  In every run of the program, start-up included, each call of
    [USART_ReadBuffer] finds the PDC free and is accepted: the return value
    that the code drops is never the refusal. *)
Theorem every_request_is_accepted (evs : list Event) (m : Machine) (l : list Action) :
  run evs boot_state = Some (m, l) ->
  arm_failed (log_of (main_start reset_state) ++ l) = false.
Proof.
  intros Hr. rewrite arm_failed_app.
  rewrite (run_never_refused evs boot_state m l Inv_boot Hr). reflexivity.
Qed.

Lemma every_request_is_accepted_witness :
  let evs := [RxComplete; Tick; RxComplete] in
  let m := mkMachine 1 1 (pString (ticked 1 1)) (mkUsart 1 4096) in
  let l := [ReadBuffer 1 1; WriteBuffer (pString (ticked 1 1)); ReadBuffer 1 1] in
  run evs boot_state = Some (m, l) /\
  arm_failed (log_of (main_start reset_state) ++ l) = false.
Proof.
  intros evs m l. split; [reflexivity|].
  apply (every_request_is_accepted evs m l). reflexivity.
Defined.

(** ** Counting events *)



Lemma tick_count_cons_tick (evs : list Event) :
  tick_count (Tick :: evs) = tick_count evs + 1.
Proof. unfold tick_count. cbn [filter is_tick length]. lia. Qed.

Lemma tick_count_cons_rx (evs : list Event) :
  tick_count (RxComplete :: evs) = tick_count evs.
Proof. reflexivity. Qed.

Lemma rx_count_nonneg (evs : list Event) : 0 <= rx_count evs.
Proof. unfold rx_count. lia. Qed.

Lemma Inv_nonneg (m : Machine) :
  Inv m -> 0 <= bytesReceived m <= MAX_BPS + (BUFFER_SIZE - 1) /\ 0 <= bytesTotal m < 2 ^ 32.
Proof.
  pose proof threshold_fits. pose proof BUFFER_SIZE_pos.
  intros (_ & Ht & [(_ & _ & Hb) | (_ & _ & Hb)]); lia.
Qed.

(** ** The capacity of an epoch *)

(** X5.  From the start of an epoch, [n] receive completions in a row can
    be handled exactly when [n * BUFFER_SIZE < MAX_BPS + BUFFER_SIZE]: with
    the constants of the source, up to 500 and not one more before the next
    tick. *)
Theorem epoch_takes_completions_up_to_threshold (n : nat) (m : Machine) :
  epoch_start m ->
  (exists m' l, run (repeat RxComplete n) m = Some (m', l)) <->
  Z.of_nat n * BUFFER_SIZE < MAX_BPS + BUFFER_SIZE.
Proof.
  intros Hstart. destruct (epoch_start_Inv m Hstart) as (HI & H0). split.
  - intros (m' & l & Hr).
    destruct (run_epoch (repeat RxComplete n) m m' l HI) as (Hn & _);
      [|exact Hr|].
    { clear. induction n as [|n IH]; [reflexivity | exact IH]. }
    rewrite H0, repeat_length, Z.add_0_l in Hn.
    pose proof (Inv_nonneg m' (run_Inv _ m m' l HI Hr)) as (Hb & _).
    lia.
  - intros Hlt. apply (run_rx_exists n m HI). rewrite H0. lia.
Qed.

Lemma epoch_takes_completions_up_to_threshold_witness :
  epoch_start boot_state /\
  ((exists m' l, run (repeat RxComplete 500) boot_state = Some (m', l)) <->
   Z.of_nat 500 * BUFFER_SIZE < MAX_BPS + BUFFER_SIZE) /\
  ((exists m' l, run (repeat RxComplete 501) boot_state = Some (m', l)) <->
   Z.of_nat 501 * BUFFER_SIZE < MAX_BPS + BUFFER_SIZE).
Proof.
  split; [left; reflexivity|]. split.
  - apply (epoch_takes_completions_up_to_threshold 500 boot_state). left; reflexivity.
  - apply (epoch_takes_completions_up_to_threshold 501 boot_state). left; reflexivity.
Defined.

(** ** The enforced rate over a whole run *)

Lemma wrap32_le (x : Z) : 0 <= x -> wrap32 x <= x.
Proof. intros Hx. unfold wrap32. apply Z.mod_le; [exact Hx | reflexivity]. Qed.

Lemma run_total_bound (evs : list Event) :
  forall (m m' : Machine) (l : list Action),
    Inv m -> run evs m = Some (m', l) ->
    bytesTotal m' <=
    bytesTotal m + tick_count evs * (MAX_BPS + (BUFFER_SIZE - 1)).
Proof.
  induction evs as [|e evs IH]; intros m m' l HI Hr.
  - apply Some_pair_inv in Hr as [<- _]. change (tick_count []) with 0. lia.
  - apply run_cons in Hr as (m1 & l1 & l2 & Hs & Hr & _).
    pose proof (Inv_nonneg m HI) as (Hn0 & Ht0).
    specialize (IH m1 m' l2 (step_Inv e m m1 l1 HI Hs) Hr).
    destruct e.
    + rewrite tick_count_cons_rx.
      destruct (step_rx m m1 l1 HI Hs) as (_ & _ & _ & Ht & _). lia.
    + rewrite tick_count_cons_tick.
      destruct (step_tick m m1 l1 HI Hs) as (_ & _ & Ht & _).
      pose proof (wrap32_le (bytesTotal m + bytesReceived m) ltac:(lia)). lia.
Qed.

(** X6.  After [k] ticks the reported total is at most
    [k * (MAX_BPS + (BUFFER_SIZE - 1))], whatever the sender does: the rate
    announced in the header ("the device will enforce the configured bytes
    per second") holds over every run. *)
Theorem total_grows_at_most_threshold_per_tick
    (evs : list Event) (m : Machine) (l : list Action) :
  run evs boot_state = Some (m, l) ->
  bytesTotal m <= tick_count evs * (MAX_BPS + (BUFFER_SIZE - 1)).
Proof.
  intros Hr. exact (run_total_bound evs boot_state m l Inv_boot Hr).
Qed.

Lemma total_grows_at_most_threshold_per_tick_witness :
  let evs := repeat RxComplete 500 ++ [Tick] in
  (exists l, run evs boot_state = Some (ticked 500 500, l)) /\
  bytesTotal (ticked 500 500) <= tick_count evs * (MAX_BPS + (BUFFER_SIZE - 1)).
Proof.
  intros evs.
  destruct (run_busy_epoch boot_state Inv_boot eq_refl) as (l & Hr).
  split; [exists l; exact Hr|].
  exact (total_grows_at_most_threshold_per_tick evs (ticked 500 500) l Hr).
Defined.

(** ** What goes out on the line *)

Lemma run_records (evs : list Event) :
  forall (m m' : Machine) (l : list Action),
    Inv m -> run evs m = Some (m', l) -> Forall well_formed_record (reports l).
Proof.
  induction evs as [|e evs IH]; intros m m' l HI Hr.
  - apply Some_pair_inv in Hr as [_ <-]. constructor.
  - apply run_cons in Hr as (m1 & l1 & l2 & Hs & Hr & ->).
    pose proof (step_Inv e m m1 l1 HI Hs) as HI1.
    rewrite reports_app. apply Forall_app. split; [|exact (IH m1 m' l2 HI1 Hr)].
    destruct e.
    + destruct (step_rx m m1 l1 HI Hs) as (_ & _ & _ & _ & _ & ->).
      destruct (bytesReceived m1 <? MAX_BPS); constructor.
    + destruct (step_tick m m1 l1 HI Hs) as (_ & _ & _ & Hp & _ & ->).
      assert (Hrec : well_formed_record (pString m1)).
      { split; [apply HI1|].
        exists (bytesReceived m), (bytesTotal m1).
        split; [apply (Inv_nonneg m HI)|]. split; [apply HI1 | exact Hp]. }
      destruct (US_RCR (BOARD_USART_BASE m) =? 0);
        cbn [reports flat_map app]; (constructor; [exact Hrec | constructor]).
Qed.

(** X8.  Every record handed to [USART_WriteBuffer] in any run is exactly
    [sizeof(pString)] bytes long and consists of the leading bytes of the
    formatted line for an epoch count of at most
    [MAX_BPS + (BUFFER_SIZE - 1)] and a 32-bit total: no report ever shows a
    rate above the threshold. *)
Theorem every_record_is_a_bounded_report
    (evs : list Event) (m : Machine) (l : list Action) :
  run evs boot_state = Some (m, l) -> Forall well_formed_record (reports l).
Proof. intros Hr. exact (run_records evs boot_state m l Inv_boot Hr). Qed.

Lemma every_record_is_a_bounded_report_witness :
  let evs := [RxComplete; Tick; Tick] in
  let m := mkMachine 0 1 (pString (ticked 0 1)) (mkUsart 1 4096) in
  let l := [ReadBuffer 1 1; WriteBuffer (pString (ticked 1 1));
            WriteBuffer (pString (ticked 0 1))] in
  run evs boot_state = Some (m, l) /\
  Forall well_formed_record [pString (ticked 1 1); pString (ticked 0 1)].
Proof.
  intros evs m l. split; [reflexivity|].
  apply (every_record_is_a_bounded_report evs m l). reflexivity.
Defined.

(** ** Reading the numbers back from a record *)

Lemma utoa_aux_head (fuel : nat) :
  forall (n : Z) (acc : list ascii),
    exists d rest, 0 <= d < 10 /\ utoa_aux (S fuel) n acc = digit d :: rest.
Proof.
  induction fuel as [|fuel IH]; intros n acc.
  - exists (n mod 10), acc. split; [apply Z.mod_pos_bound; reflexivity|].
    cbn [utoa_aux]. destruct (n / 10 =? 0); reflexivity.
  - change (utoa_aux (S (S fuel)) n acc)
      with (if n / 10 =? 0 then digit (n mod 10) :: acc
            else utoa_aux (S fuel) (n / 10) (digit (n mod 10) :: acc)).
    destruct (n / 10 =? 0).
    + exists (n mod 10), acc. split; [apply Z.mod_pos_bound; reflexivity | reflexivity].
    + apply IH.
Qed.

Lemma digit_not_space (d : Z) : 0 <= d < 10 -> Ascii.eqb (digit d) " " = false.
Proof.
  intros Hd. apply Ascii.eqb_neq. intros Heq.
  apply (f_equal nat_of_ascii) in Heq. unfold digit in Heq.
  rewrite nat_ascii_embedding in Heq by lia.
  change (nat_of_ascii " ") with 32%nat in Heq. lia.
Qed.

Lemma drop_spaces_fmt_u (w : nat) (n : Z) : drop_spaces (fmt_u w n) = utoa n.
Proof.
  unfold fmt_u. induction (w - length (utoa n))%nat as [|k IH].
  - cbn [repeat app]. unfold utoa.
    destruct (utoa_aux_head 9 n []) as (d & rest & Hd & ->).
    cbn [drop_spaces]. rewrite (digit_not_space d Hd). reflexivity.
  - cbn [repeat app drop_spaces]. rewrite Ascii.eqb_refl. exact IH.
Qed.

Lemma field_at (pre f post : list ascii) (start width : nat) :
  length pre = start -> length f = width ->
  firstn width (skipn start (pre ++ f ++ post)) = f.
Proof.
  intros <- <-.
  rewrite skipn_app, skipn_all2, Nat.sub_diag by apply Nat.le_refl.
  cbn [app skipn].
  rewrite firstn_app, Nat.sub_diag, firstn_O, app_nil_r.
  apply firstn_all2, Nat.le_refl.
Qed.

(** X9.  For an epoch count of at most four digits and a total of at most
    six, the record sent is the whole line, and its two number fields, read
    back as right-aligned decimals at columns 5..8 and 16..21, give the epoch
    count and the total that were formatted. *)
Theorem report_fields_read_back (bps tot : Z) :
  0 <= bps < 10 ^ 4 ->
  0 <= tot < 10 ^ 6 ->
  firstn sizeof_pString (report_chars bps tot) = report_chars bps tot /\
  read_field 5 4 (firstn sizeof_pString (report_chars bps tot)) = bps /\
  read_field 16 6 (firstn sizeof_pString (report_chars bps tot)) = tot.
Proof.
  intros Hb Ht.
  assert (Hall : firstn sizeof_pString (report_chars bps tot) = report_chars bps tot).
  { apply firstn_all2. rewrite (report_chars_length_fit bps tot Hb Ht). apply Nat.le_refl. }
  assert (H4 : length (fmt_u 4 bps) = 4%nat)
    by (apply fmt_u_length_fit, utoa_length; [lia | exact Hb]).
  assert (H6 : length (fmt_u 6 tot) = 6%nat)
    by (apply fmt_u_length_fit, utoa_length; [lia | exact Ht]).
  split; [exact Hall|]. rewrite Hall. unfold read_field. split.
  - unfold report_chars. rewrite field_at by (reflexivity || exact H4).
    rewrite drop_spaces_fmt_u. apply utoa_value. lia.
  - replace (report_chars bps tot)
      with ((list_ascii_of_string "Bps: " ++ fmt_u 4 bps ++
             list_ascii_of_string "; Tot: ") ++ fmt_u 6 tot ++ [LF; CR])
      by (unfold report_chars; rewrite <- !app_assoc; reflexivity).
    rewrite field_at; [| rewrite !length_app, H4; reflexivity | exact H6].
    rewrite drop_spaces_fmt_u. apply utoa_value. lia.
Qed.

Lemma report_fields_read_back_witness :
  0 <= 500 < 10 ^ 4 /\ 0 <= 1500 < 10 ^ 6 /\
  firstn sizeof_pString (report_chars 500 1500) = report_chars 500 1500 /\
  read_field 5 4 (firstn sizeof_pString (report_chars 500 1500)) = 500 /\
  read_field 16 6 (firstn sizeof_pString (report_chars 500 1500)) = 1500.
Proof.
  split; [split; [discriminate | reflexivity]|].
  split; [split; [discriminate | reflexivity]|].
  apply (report_fields_read_back 500 1500);
    split; solve [discriminate | reflexivity].
Defined.

(** * Any layout behind [pString], the three interrupt sources apart *)

Ltac unfold_handler_in :=
  cbv [TC0_IrqHandler_in TC0_display_info TC0_reset_and_resume sprintf_pString_in
       TC0_IrqHandler sprintf_pString spill_unused bind ret
       load_bytesReceived store_bytesReceived load_bytesTotal store_bytesTotal
       read_US_RCR write_US_IER write_US_IDR USART_ReadBuffer USART_WriteBuffer
       with_usart state_of log_of
       fst snd app bytesReceived bytesTotal pString BOARD_USART_BASE US_RCR US_IMR].

(** With nothing of the program behind the array, the handler in a layout
    is the handler of the first part. *)
Lemma TC0_IrqHandler_in_unused (dwStatus : Z) (m : Machine) :
  TC0_IrqHandler_in spill_unused dwStatus m = TC0_IrqHandler dwStatus m.
Proof.
  destruct m as [n t s [rcr imr]].
  unfold TC0_IrqHandler_in, TC0_IrqHandler.
  destruct (Z.land dwStatus TC_SR_CPCS =? TC_SR_CPCS); [|reflexivity].
  unfold_handler_in. destruct (rcr =? 0); reflexivity.
Qed.

Lemma reporter_in_resume (spill : Spill) (n t : Z) (s : list ascii) (imr : Z) :
  TC0_IrqHandler_in spill TC_SR_CPCS (mkMachine n t s (mkUsart 0 imr)) =
  (tt,
   mkMachine 0
     (snd (spill (skipn (length s) (sprintf_bytes n (wrap32 (t + n))))
             (n, wrap32 (t + n))))
     (store_bytes s (sprintf_bytes n (wrap32 (t + n))))
     (mkUsart BUFFER_SIZE (Z.lor imr US_IER_RXBUFF)),
   [WriteBuffer (firstn sizeof_pString
                   (store_bytes s (sprintf_bytes n (wrap32 (t + n)))));
    ReadBuffer BUFFER_SIZE 1]).
Proof.
  unfold TC0_IrqHandler_in. rewrite CPCS_set. unfold_handler_in. reflexivity.
Qed.

Lemma reporter_in_running (spill : Spill) (n t : Z) (s : list ascii) (rcr imr : Z) :
  rcr <> 0 ->
  TC0_IrqHandler_in spill TC_SR_CPCS (mkMachine n t s (mkUsart rcr imr)) =
  (tt,
   mkMachine 0
     (snd (spill (skipn (length s) (sprintf_bytes n (wrap32 (t + n))))
             (n, wrap32 (t + n))))
     (store_bytes s (sprintf_bytes n (wrap32 (t + n))))
     (mkUsart rcr imr),
   [WriteBuffer (firstn sizeof_pString
                   (store_bytes s (sprintf_bytes n (wrap32 (t + n)))))]).
Proof.
  intros H. apply Z.eqb_neq in H.
  unfold TC0_IrqHandler_in. rewrite CPCS_set. unfold_handler_in.
  rewrite H. reflexivity.
Qed.

(** The two parts put together are the handler: the cut is at a statement
    boundary. *)
Lemma TC0_IrqHandler_in_parts (spill : Spill) (m : Machine) :
  TC0_IrqHandler_in spill TC_SR_CPCS m =
  (tt,
   state_of (TC0_reset_and_resume (state_of (TC0_display_info spill m))),
   log_of (TC0_display_info spill m) ++
   log_of (TC0_reset_and_resume (state_of (TC0_display_info spill m)))).
Proof.
  destruct m as [n t s [rcr imr]].
  unfold TC0_IrqHandler_in. rewrite CPCS_set.
  unfold_handler_in. destruct (rcr =? 0); reflexivity.
Qed.

(** The layouts named above keep the counters in 32 bits. *)
Lemma spill_unused_32bit : spill_32bit spill_unused.
Proof. intros bs n t Hn Ht. split; assumption. Qed.

Lemma le_value_range (bs : list ascii) :
  0 <= le_value bs < 256 ^ Z.of_nat (length bs).
Proof.
  induction bs as [|c bs IH]; [split; [apply Z.le_refl | reflexivity]|].
  cbn [le_value fold_right length]. fold (le_value bs).
  rewrite Nat2Z.inj_succ, Z.pow_succ_r by lia.
  pose proof (nat_ascii_bounded c) as Hc. lia.
Qed.

Lemma store_bytes_length (buf data : list ascii) :
  length (store_bytes buf data) = length buf.
Proof. unfold store_bytes. rewrite length_app, length_firstn, length_skipn. lia. Qed.

Lemma spill_on_bytesTotal_32bit : spill_32bit spill_on_bytesTotal.
Proof.
  intros bs n t Hn Ht. split; [exact Hn|].
  unfold spill_on_bytesTotal. cbn [snd].
  pose proof (le_value_range (store_bytes (le_bytes t) bs)) as H.
  rewrite store_bytes_length in H. exact H.
Qed.

(** ** One event of the three sources *)

Lemma Inv_HInv (m : Machine) : Inv m -> HInv m.
Proof. intros H. left. exact H. Qed.

Lemma hw_pdc (spill : Spill) (m m' : Machine) (l : list Action) :
  HInv m -> hw_step spill PdcDone m = Some (m', l) ->
  Inv m /\ armed (BOARD_USART_BASE m) = true /\
  Pending m' /\ unit_pending (BOARD_USART_BASE m') = true /\
  bytesReceived m' = bytesReceived m /\
  bytesTotal m' = bytesTotal m /\
  l = [].
Proof.
  destruct m as [n t s [rcr imr]].
  intros HI Hs. unfold hw_step in Hs. cbv [BOARD_USART_BASE] in Hs.
  assert (HA : Inv (mkMachine n t s (mkUsart rcr imr)) /\
               rcr = BUFFER_SIZE /\ imr = US_IER_RXBUFF).
  { destruct HI as [HI | HP].
    - split; [exact HI|].
      destruct HI as (_ & _ & [(Hr & Hi & _) | (Hr & _ & _)]);
        cbv [BOARD_USART_BASE US_RCR US_IMR] in *; [split; assumption|].
      subst rcr. discriminate Hs.
    - destruct HP as (_ & _ & Hr & _). cbv [BOARD_USART_BASE US_RCR] in Hr.
      subst rcr. discriminate Hs. }
  destruct HA as (HI' & -> & ->).
  change (armed (mkUsart BUFFER_SIZE US_IER_RXBUFF)) with true in Hs. cbv iota in Hs.
  apply Some_pair_inv in Hs as [<- <-].
  change (pdc_complete (mkMachine n t s (mkUsart BUFFER_SIZE US_IER_RXBUFF)))
    with (mkMachine n t s (mkUsart 0 US_IER_RXBUFF)).
  split; [exact HI'|]. split; [reflexivity|].
  destruct HI' as (Hlen & Ht & [(_ & _ & Hn) | (Hr & _ & _)]);
    cbv [bytesReceived bytesTotal pString BOARD_USART_BASE US_RCR US_IMR] in *;
    [|discriminate Hr].
  split; [|repeat split].
  unfold Pending.
  cbv [bytesReceived bytesTotal pString BOARD_USART_BASE US_RCR US_IMR].
  repeat split; try assumption; lia.
Qed.

Lemma hw_irq (spill : Spill) (m m' : Machine) (l : list Action) :
  HInv m -> hw_step spill UsartIrq m = Some (m', l) ->
  Inv m' /\
  bytesTotal m' = bytesTotal m /\
  ((Inv m /\ armed (BOARD_USART_BASE m) = true /\ m' = m /\ l = []) \/
   (Pending m /\
    bytesReceived m' = bytesReceived m + BUFFER_SIZE /\
    l = (if bytesReceived m' <? MAX_BPS then [ReadBuffer BUFFER_SIZE 1] else []))).
Proof.
  destruct m as [n t s [rcr imr]].
  intros [HI | HP] Hs.
  - pose proof HI as HI0.
    destruct HI as (_ & _ & [(Hr & Hi & _) | (Hr & Hi & _)]);
      cbv [BOARD_USART_BASE US_RCR US_IMR] in Hr, Hi; subst rcr imr.
    + apply Some_pair_inv in Hs as [<- <-].
      split; [exact HI0|]. split; [reflexivity|]. left.
      split; [exact HI0|]. split; [reflexivity|]. split; reflexivity.
    + discriminate Hs.
  - pose proof HP as HP0.
    destruct HP as (Hlen & Ht & Hr & Hi & Hn).
    cbv [bytesReceived bytesTotal pString BOARD_USART_BASE US_RCR US_IMR] in *.
    subst rcr imr.
    change (hw_step spill UsartIrq (mkMachine n t s (mkUsart 0 US_IER_RXBUFF)))
      with (step RxComplete (mkMachine n t s (mkUsart BUFFER_SIZE US_IER_RXBUFF))) in Hs.
    assert (HI0 : Inv (mkMachine n t s (mkUsart BUFFER_SIZE US_IER_RXBUFF))).
    { split; [exact Hlen|]. split; [exact Ht|]. left.
      repeat split; try reflexivity; cbv [bytesReceived]; lia. }
    destruct (step_rx _ m' l HI0 Hs) as (HI' & _ & Hn' & Ht' & _ & Hl).
    split; [exact HI'|]. split; [exact Ht'|]. right.
    split; [exact HP0|]. split; assumption.
Qed.

Lemma hw_tick (spill : Spill) (m m' : Machine) (l : list Action) :
  spill_32bit spill ->
  HInv m -> hw_step spill TickIrq m = Some (m', l) ->
  Inv m' /\
  bytesReceived m' = 0 /\
  pString m' = record (bytesReceived m, wrap32 (bytesTotal m + bytesReceived m)) /\
  BOARD_USART_BASE m' = mkUsart BUFFER_SIZE US_IER_RXBUFF /\
  bytesTotal m' =
    snd (spill (skipn sizeof_pString
                  (sprintf_bytes (bytesReceived m)
                     (wrap32 (bytesTotal m + bytesReceived m))))
           (bytesReceived m, wrap32 (bytesTotal m + bytesReceived m))) /\
  l = WriteBuffer (pString m') ::
      (if US_RCR (BOARD_USART_BASE m) =? 0 then [ReadBuffer BUFFER_SIZE 1] else []).
Proof.
  intros Hspill HI Hs.
  pose proof threshold_fits as [Hpos Hfit]. pose proof BUFFER_SIZE_pos as Hb.
  destruct m as [n t s [rcr imr]].
  assert (Hlen : length s = sizeof_pString)
    by (destruct HI as [(H & _) | (H & _)]; exact H).
  assert (Hn : 0 <= n < 2 ^ 32).
  { destruct HI as [(_ & _ & [(_ & _ & H) | (_ & _ & H)]) | (_ & _ & _ & _ & H)];
      cbv [bytesReceived] in H; lia. }
  pose proof (wrap32_range (t + n)) as Ht'.
  destruct (Hspill (skipn sizeof_pString (sprintf_bytes n (wrap32 (t + n))))
              n (wrap32 (t + n)) Hn Ht') as (_ & Hhit).
  assert (Hcases : (rcr = BUFFER_SIZE /\ imr = US_IER_RXBUFF) \/
                   (rcr = 0 /\ (imr = 0 \/ imr = US_IER_RXBUFF))).
  { destruct HI as [(_ & _ & [(Hr & Hi & _) | (Hr & Hi & _)]) | (_ & _ & Hr & Hi & _)];
      cbv [BOARD_USART_BASE US_RCR US_IMR] in Hr, Hi; auto. }
  unfold hw_step in Hs.
  cbv [bytesReceived bytesTotal pString BOARD_USART_BASE US_RCR US_IMR].
  destruct Hcases as [(-> & ->) | (-> & Himr)].
  - rewrite reporter_in_running in Hs by lia.
    unfold state_of, log_of in Hs. cbn [fst snd] in Hs.
    apply Some_pair_inv in Hs as [<- <-].
    unfold Inv, record.
    cbn [fst snd bytesReceived bytesTotal pString BOARD_USART_BASE US_RCR US_IMR].
    rewrite Hlen, store_sprintf by exact Hlen.
    rewrite firstn_firstn, Nat.min_id.
    replace (BUFFER_SIZE =? 0) with false by (symmetry; apply Z.eqb_neq; lia).
    repeat split; try reflexivity; try lia; try apply firstn_sizeof_length.
    all: left; repeat split; try reflexivity; lia.
  - rewrite reporter_in_resume in Hs.
    unfold state_of, log_of in Hs. cbn [fst snd] in Hs.
    apply Some_pair_inv in Hs as [<- <-].
    unfold Inv, record.
    cbn [fst snd bytesReceived bytesTotal pString BOARD_USART_BASE US_RCR US_IMR].
    rewrite Hlen, store_sprintf by exact Hlen.
    rewrite firstn_firstn, Nat.min_id.
    change (0 =? 0) with true.
    assert (Hlor : Z.lor imr US_IER_RXBUFF = US_IER_RXBUFF)
      by (destruct Himr as [-> | ->]; reflexivity).
    rewrite Hlor.
    repeat split; try reflexivity; try lia; try apply firstn_sizeof_length.
    all: left; repeat split; try reflexivity; lia.
Qed.

Lemma hw_step_HInv (spill : Spill) (e : HwEvent) (m m' : Machine) (l : list Action) :
  spill_32bit spill -> HInv m -> hw_step spill e m = Some (m', l) -> HInv m'.
Proof.
  intros Hspill HI Hs. destruct e.
  - right. apply (hw_pdc spill m m' l HI Hs).
  - left. apply (hw_irq spill m m' l HI Hs).
  - left. apply (hw_tick spill m m' l Hspill HI Hs).
Qed.

Lemma hw_run_cons (spill : Spill) (e : HwEvent) (evs : list HwEvent)
    (m m' : Machine) (l : list Action) :
  hw_run spill (e :: evs) m = Some (m', l) ->
  exists m1 l1 l2,
    hw_step spill e m = Some (m1, l1) /\
    hw_run spill evs m1 = Some (m', l2) /\ l = l1 ++ l2.
Proof.
  cbn [hw_run]. destruct (hw_step spill e m) as [[m1 l1]|]; [|discriminate].
  destruct (hw_run spill evs m1) as [[m2 l2]|] eqn:Hr; [|discriminate].
  intros H. apply Some_pair_inv in H as [<- <-]. exists m1, l1, l2. auto.
Qed.

Lemma hw_run_HInv (spill : Spill) (evs : list HwEvent) :
  spill_32bit spill ->
  forall (m m' : Machine) (l : list Action),
    HInv m -> hw_run spill evs m = Some (m', l) -> HInv m'.
Proof.
  intros Hspill. induction evs as [|e evs IH]; intros m m' l HI Hr.
  - apply Some_pair_inv in Hr as [<- _]. exact HI.
  - apply hw_run_cons in Hr as (m1 & l1 & l2 & Hs & Hr & _).
    apply (IH m1 m' l2); [|exact Hr].
    exact (hw_step_HInv spill e m m1 l1 Hspill HI Hs).
Qed.

Lemma hw_reachable_HInv (spill : Spill) (m : Machine) :
  spill_32bit spill -> hw_reachable spill m -> HInv m.
Proof.
  intros Hspill (evs & l & Hr).
  exact (hw_run_HInv spill evs Hspill boot_state m l (Inv_HInv _ Inv_boot) Hr).
Qed.

(** ** The runs of the first part are runs of the three sources *)

Lemma hw_fused_rx (spill : Spill) (rest : list HwEvent) (m : Machine) :
  hw_run spill (PdcDone :: UsartIrq :: rest) m =
  match step RxComplete m with
  | None => None
  | Some (m1, l1) =>
      match hw_run spill rest m1 with
      | None => None
      | Some (m2, l2) => Some (m2, l1 ++ l2)
      end
  end.
Proof.
  destruct m as [n t s [rcr imr]].
  cbn [hw_run]. unfold hw_step at 1. unfold step.
  cbv [BOARD_USART_BASE]. unfold armed at 1 2. cbv [US_RCR].
  destruct (rcr =? 0); cbn [negb andb]; [reflexivity|].
  unfold hw_step at 1.
  change (BOARD_USART_BASE (pdc_complete (mkMachine n t s (mkUsart rcr imr))))
    with (mkUsart 0 imr).
  change (US_CSR_now (mkUsart 0 imr)) with US_CSR_RXBUFF.
  change (rx_irq_enabled (mkUsart 0 imr)) with (rx_irq_enabled (mkUsart rcr imr)).
  destruct (rx_irq_enabled (mkUsart rcr imr)); [|reflexivity].
  match goal with
  | |- context [hw_run spill rest ?x] =>
      destruct (hw_run spill rest x) as [[m2 l2]|]; reflexivity
  end.
Qed.

(** Every run of the first part is the run of the three sources in which
    each completed unit is served at once, in the layout with nothing behind
    the array. *)
Lemma run_is_fused_hw_run (evs : list Event) :
  forall m : Machine, hw_run spill_unused (flat_map unfuse evs) m = run evs m.
Proof.
  induction evs as [|e evs IH]; intros m; [reflexivity|].
  destruct e; cbn [flat_map unfuse app].
  - rewrite hw_fused_rx. cbn [run].
    destruct (step RxComplete m) as [[m1 l1]|]; [|reflexivity].
    rewrite IH. reflexivity.
  - cbn [hw_run run]. unfold hw_step, step.
    rewrite TC0_IrqHandler_in_unused, IH. reflexivity.
Qed.

(** ** C2: a completion and a tick that overlap *)


Lemma sum_counts_cons (x : Z * Z) (xs : list (Z * Z)) :
  sum_counts (x :: xs) = fst x + sum_counts xs.
Proof. reflexivity. Qed.




(** ** C8: the running total, in any layout *)

(** What the out-of-bounds bytes do when [bytesTotal] lies right behind
    [pString]: the first tick reports 500 and 500, the NUL then clears the
    low byte of the stored total, and the second tick reports 0 and 256. *)
Lemma stored_total_hit_when_behind_pString :
  exists m l,
    hw_run spill_on_bytesTotal
      (flat_map unfuse (repeat RxComplete 500 ++ [Tick; Tick])) boot_state = Some (m, l) /\
    reports l = [record (500, 500); record (0, 256)] /\
    bytesTotal m = 256.
Proof.
  exists (mkMachine 0 256 (record (0, 256)) (mkUsart 1 4096)).
  exists (repeat (ReadBuffer 1 1) 499 ++
          [WriteBuffer (record (500, 500)); ReadBuffer 1 1; WriteBuffer (record (0, 256))]).
  split; [vm_compute; reflexivity|]. split; reflexivity.
Qed.




(** ** The tick, whatever it finds, in any layout *)

(** X2.  In any layout and whatever the order of the events, a tick leaves
    the epoch count at zero, the record in [pString], one unit requested and
    the RXBUFF interrupt enabled; it calls [USART_ReadBuffer] only when no
    request is outstanding, so it never requests twice, and that request is
    accepted. *)
Theorem tick_rearms_only_when_not_armed
    (spill : Spill) (m m' : Machine) (l : list Action) :
  spill_32bit spill ->
  hw_reachable spill m ->
  hw_step spill TickIrq m = Some (m', l) ->
  bytesReceived m' = 0 /\
  pString m' = record (bytesReceived m, wrap32 (bytesTotal m + bytesReceived m)) /\
  BOARD_USART_BASE m' = mkUsart BUFFER_SIZE US_IER_RXBUFF /\
  arms l = (if armed (BOARD_USART_BASE m) then [] else [BUFFER_SIZE]) /\
  arm_failed l = false.
Proof.
  intros Hspill Hreach Hs.
  pose proof (hw_reachable_HInv spill m Hspill Hreach) as HI.
  destruct (hw_tick spill m m' l Hspill HI Hs) as (_ & Hn & Hp & Hu & _ & ->).
  split; [exact Hn|]. split; [exact Hp|]. split; [exact Hu|].
  unfold armed. destruct (US_RCR (BOARD_USART_BASE m) =? 0); split; reflexivity.
Qed.

Lemma tick_rearms_only_when_not_armed_witness :
  let m := mkMachine 0 0 (repeat zero sizeof_pString) (mkUsart 0 4096) in
  let m' := mkMachine 0 0 (record (0, 0)) (mkUsart 1 4096) in
  let l := [WriteBuffer (record (0, 0)); ReadBuffer 1 1] in
  spill_32bit spill_on_bytesTotal /\
  hw_run spill_on_bytesTotal [PdcDone] boot_state = Some (m, []) /\
  hw_step spill_on_bytesTotal TickIrq m = Some (m', l) /\
  bytesReceived m' = 0 /\
  pString m' = record (bytesReceived m, wrap32 (bytesTotal m + bytesReceived m)) /\
  BOARD_USART_BASE m' = mkUsart BUFFER_SIZE US_IER_RXBUFF /\
  arms l = (if armed (BOARD_USART_BASE m) then [] else [BUFFER_SIZE]) /\
  arm_failed l = false.
Proof.
  intros m m' l.
  split; [exact spill_on_bytesTotal_32bit|].
  split; [reflexivity|]. split; [reflexivity|].
  apply (tick_rearms_only_when_not_armed spill_on_bytesTotal m m' l).
  - exact spill_on_bytesTotal_32bit.
  - exists [PdcDone], []. reflexivity.
  - reflexivity.
Defined.

(** ** No unit is counted twice *)

Lemma pdc_count_nonneg (evs : list HwEvent) : 0 <= pdc_count evs.
Proof. unfold pdc_count. lia. Qed.

Lemma pdc_count_cons_pdc (evs : list HwEvent) :
  pdc_count (PdcDone :: evs) = pdc_count evs + 1.
Proof. unfold pdc_count. cbn [filter length]. lia. Qed.

Lemma Inv_not_pending (m : Machine) : Inv m -> pending_bytes m = 0.
Proof.
  destruct m as [n t s [rcr imr]]. unfold Inv, pending_bytes.
  cbv [bytesReceived bytesTotal pString BOARD_USART_BASE US_RCR US_IMR].
  intros (_ & _ & [(-> & -> & _) | (-> & -> & _)]); reflexivity.
Qed.

Lemma hw_run_counts (spill : Spill) (evs : list HwEvent) :
  spill_32bit spill ->
  forall (m m' : Machine) (l : list Action),
    HInv m -> hw_run spill evs m = Some (m', l) ->
    exists samples,
      reports l = map record samples /\
      sum_counts samples + bytesReceived m' + pending_bytes m' <=
      bytesReceived m + pending_bytes m + pdc_count evs * BUFFER_SIZE.
Proof.
  intros Hspill. pose proof BUFFER_SIZE_pos as Hb.
  induction evs as [|e evs IH]; intros m m' l HI Hr.
  - apply Some_pair_inv in Hr as [<- <-]. exists [].
    split; [reflexivity|]. change (pdc_count []) with 0. cbn. lia.
  - apply hw_run_cons in Hr as (m1 & l1 & l2 & Hs & Hr & ->).
    pose proof (hw_step_HInv spill e m m1 l1 Hspill HI Hs) as HI1.
    destruct (IH m1 m' l2 HI1 Hr) as (samples & Hrep & Hsum).
    rewrite reports_app, Hrep. destruct e.
    + destruct (hw_pdc spill m m1 l1 HI Hs) as (HIm & _ & _ & Hpend & Hn & _ & ->).
      exists samples. split; [reflexivity|].
      rewrite pdc_count_cons_pdc, (Inv_not_pending m HIm).
      unfold pending_bytes in Hsum at 2. rewrite Hpend, Hn in Hsum. lia.
    + change (pdc_count (UsartIrq :: evs)) with (pdc_count evs).
      destruct (hw_irq spill m m1 l1 HI Hs)
        as (HIm1 & _ & [(_ & _ & -> & ->) | (HP & Hn & ->)]).
      * exists samples. split; [reflexivity | exact Hsum].
      * exists samples.
        split; [destruct (bytesReceived m1 <? MAX_BPS); reflexivity|].
        rewrite (Inv_not_pending m1 HIm1), Hn in Hsum.
        assert (Hpm : pending_bytes m = BUFFER_SIZE).
        { destruct m as [n t s [rcr imr]]. destruct HP as (_ & _ & Hr0 & Hi0 & _).
          cbv [BOARD_USART_BASE US_RCR US_IMR] in Hr0, Hi0. subst rcr imr. reflexivity. }
        rewrite Hpm. lia.
    + change (pdc_count (TickIrq :: evs)) with (pdc_count evs).
      destruct (hw_tick spill m m1 l1 Hspill HI Hs) as (HIm1 & Hn & Hp & _ & _ & ->).
      exists ((bytesReceived m, wrap32 (bytesTotal m + bytesReceived m)) :: samples).
      split.
      * rewrite Hp. destruct (US_RCR (BOARD_USART_BASE m) =? 0); reflexivity.
      * rewrite sum_counts_cons. cbn [fst].
        rewrite (Inv_not_pending m1 HIm1), Hn in Hsum.
        assert (Hpm : 0 <= pending_bytes m)
          by (unfold pending_bytes; destruct (unit_pending _); lia).
        lia.
Qed.

(** X4.  In any layout and whatever the order in which units complete and
    the two handlers are served, the epoch counts in the records sent, the
    count of the epoch under way and the unit still waiting for the USART
    handler never add up to more than the units the PDC completed times
    [BUFFER_SIZE]: no unit is counted twice. *)
Theorem no_unit_counted_twice
    (spill : Spill) (evs : list HwEvent) (m : Machine) (l : list Action) :
  spill_32bit spill ->
  hw_run spill evs boot_state = Some (m, l) ->
  exists samples,
    reports l = map record samples /\
    sum_counts samples + bytesReceived m + pending_bytes m <=
    pdc_count evs * BUFFER_SIZE.
Proof.
  intros Hspill Hr.
  destruct (hw_run_counts spill evs Hspill boot_state m l (Inv_HInv _ Inv_boot) Hr)
    as (samples & Hrep & Hsum).
  exists samples. split; [exact Hrep|].
  change (bytesReceived boot_state) with 0 in Hsum.
  change (pending_bytes boot_state) with 0 in Hsum. lia.
Qed.

Lemma no_unit_counted_twice_witness :
  let evs := [PdcDone; UsartIrq; PdcDone; TickIrq; UsartIrq] in
  let m := mkMachine 0 0 (record (1, 1)) (mkUsart 1 4096) in
  let l := [ReadBuffer 1 1; WriteBuffer (record (1, 1)); ReadBuffer 1 1] in
  spill_32bit spill_on_bytesTotal /\
  hw_run spill_on_bytesTotal evs boot_state = Some (m, l) /\
  exists samples,
    reports l = map record samples /\
    sum_counts samples + bytesReceived m + pending_bytes m <=
    pdc_count evs * BUFFER_SIZE.
Proof.
  intros evs m l.
  split; [exact spill_on_bytesTotal_32bit|]. split; [reflexivity|].
  apply (no_unit_counted_twice spill_on_bytesTotal evs m l).
  - exact spill_on_bytesTotal_32bit.
  - reflexivity.
Defined.

(** ** Requests and completed units balance *)

Lemma hw_run_requests_balance (spill : Spill) (evs : list HwEvent) :
  spill_32bit spill ->
  forall (m m' : Machine) (l : list Action),
    HInv m -> hw_run spill evs m = Some (m', l) ->
    Z.of_nat (length (arms l)) + outstanding (BOARD_USART_BASE m) =
    pdc_count evs + outstanding (BOARD_USART_BASE m').
Proof.
  intros Hspill. induction evs as [|e evs IH]; intros m m' l HI Hr.
  - apply Some_pair_inv in Hr as [<- <-]. reflexivity.
  - apply hw_run_cons in Hr as (m1 & l1 & l2 & Hs & Hr & ->).
    pose proof (hw_step_HInv spill e m m1 l1 Hspill HI Hs) as HI1.
    specialize (IH m1 m' l2 HI1 Hr).
    rewrite arms_app, length_app, Nat2Z.inj_add. destruct e.
    + destruct (hw_pdc spill m m1 l1 HI Hs) as (_ & Ha & HP & _ & _ & _ & ->).
      rewrite pdc_count_cons_pdc.
      assert (Ha1 : outstanding (BOARD_USART_BASE m1) = 0).
      { destruct HP as (_ & _ & Hr0 & _). unfold outstanding, armed. rewrite Hr0. reflexivity. }
      unfold outstanding at 1. rewrite Ha. rewrite Ha1 in IH. cbn [arms flat_map length]. lia.
    + change (pdc_count (UsartIrq :: evs)) with (pdc_count evs).
      destruct (hw_irq spill m m1 l1 HI Hs)
        as (HIm1 & _ & [(_ & _ & -> & ->) | (HP & _ & ->)]).
      * cbn [arms flat_map length]. lia.
      * assert (Ha0 : outstanding (BOARD_USART_BASE m) = 0).
        { destruct HP as (_ & _ & Hr0 & _). unfold outstanding, armed. rewrite Hr0. reflexivity. }
        destruct (Inv_armed m1 HIm1) as (Ha1 & _).
        unfold outstanding in IH at 1. rewrite Ha1 in IH. rewrite Ha0.
        destruct (bytesReceived m1 <? MAX_BPS); cbn [arms flat_map app length] in *; lia.
    + change (pdc_count (TickIrq :: evs)) with (pdc_count evs).
      destruct (hw_tick spill m m1 l1 Hspill HI Hs) as (_ & _ & _ & Hu & _ & ->).
      rewrite Hu in IH.
      change (outstanding (mkUsart BUFFER_SIZE US_IER_RXBUFF)) with 1 in IH.
      unfold outstanding at 1. unfold armed at 1.
      destruct (US_RCR (BOARD_USART_BASE m) =? 0);
        cbn [arms flat_map app length negb] in *; lia.
Qed.

(** X7.  In any layout and whatever the order of the events, the receive
    requests issued (the one of start-up included) are as many as the units
    the PDC completed, plus one if a request is outstanding at the end: every
    request is used up by one received unit and no unit is received without
    a request. *)
Theorem requests_match_units_received
    (spill : Spill) (evs : list HwEvent) (m : Machine) (l : list Action) :
  spill_32bit spill ->
  hw_run spill evs boot_state = Some (m, l) ->
  Z.of_nat (length (arms (log_of (main_start reset_state) ++ l))) =
  pdc_count evs + outstanding (BOARD_USART_BASE m).
Proof.
  intros Hspill Hr.
  pose proof (hw_run_requests_balance spill evs Hspill boot_state m l
                (Inv_HInv _ Inv_boot) Hr) as H.
  change (outstanding (BOARD_USART_BASE boot_state)) with 1 in H.
  rewrite arms_app, length_app, Nat2Z.inj_add.
  change (Z.of_nat (length (arms (log_of (main_start reset_state))))) with 1.
  lia.
Qed.

Lemma requests_match_units_received_witness :
  let evs := [PdcDone; TickIrq; UsartIrq] in
  let m := mkMachine 0 0 (record (0, 0)) (mkUsart 1 4096) in
  let l := [WriteBuffer (record (0, 0)); ReadBuffer 1 1] in
  spill_32bit spill_unused /\
  hw_run spill_unused evs boot_state = Some (m, l) /\
  Z.of_nat (length (arms (log_of (main_start reset_state) ++ l))) =
  pdc_count evs + outstanding (BOARD_USART_BASE m).
Proof.
  intros evs m l.
  split; [exact spill_unused_32bit|]. split; [reflexivity|].
  apply (requests_match_units_received spill_unused evs m l).
  - exact spill_unused_32bit.
  - reflexivity.
Defined.
